(** * connections-backend: the date-keyed lookup service of [main.py]

  A shallow embedding of the three FastAPI handlers of [main.py], of the
  [get_db_connection] context manager and of [parse_date_string], together
  with the parts of the Python runtime they call: [datetime.strptime] with
  the format ["%Y-%m-%d"], [date.strftime], and the psycopg2 driver calls,
  the latter as operations on an explicit world that records every call. *)

From Stdlib Require Import ZArith NArith List String Ascii Bool Lia.
Import ListNotations.

Local Open Scope Z_scope.

(** ** Python strings

  A Python [str] is a sequence of Unicode code points.  Literals of the
  source are written as Rocq strings and read through [cps]. *)

Definition str := list N.

Definition cps (s : string) : str := map N_of_ascii (list_ascii_of_string s).

Fixpoint str_eqb (a b : str) : bool :=
  match a, b with
  | [], [] => true
  | x :: a', y :: b' => (x =? y)%N && str_eqb a' b'
  | _, _ => false
  end.

(** ** The dates of [datetime]

  [datetime.date(year, month, day)] raises [ValueError] unless
  [MINYEAR <= year <= MAXYEAR], [1 <= month <= 12] and
  [1 <= day <= _days_in_month(year, month)]. *)

Module Datetime.

Record date := mkdate { year : Z; month : Z; day : Z }.

Definition MINYEAR := 1.
Definition MAXYEAR := 9999.

Definition _is_leap (y : Z) : bool :=
  (y mod 4 =? 0) && (negb (y mod 100 =? 0) || (y mod 400 =? 0)).

Definition _DAYS_IN_MONTH : list Z :=
  [-1; 31; 28; 31; 30; 31; 30; 31; 31; 30; 31; 30; 31].

Definition _days_in_month (y m : Z) : Z :=
  if (m =? 2) && _is_leap y then 29
  else nth (Z.to_nat m) _DAYS_IN_MONTH 0.

(** [None] stands for the [ValueError] of [_check_date_fields]. *)
Definition new_date (y m d : Z) : option date :=
  if negb ((MINYEAR <=? y) && (y <=? MAXYEAR)) then None
  else if negb ((1 <=? m) && (m <=? 12)) then None
  else if negb ((1 <=? d) && (d <=? _days_in_month y m)) then None
  else Some (mkdate y m d).

Definition date_eqb (a b : date) : bool :=
  (year a =? year b) && (month a =? month b) && (day a =? day b).

(** [zfill w n]: the [w] low decimal digits of [n], most significant
    first, as ASCII digits. *)
Fixpoint zfill (w : nat) (n : Z) : str :=
  match w with
  | O => []
  | S w' => zfill w' (n / 10) ++ [Z.to_N (48 + n mod 10)]
  end.

(** [%Y] as the C library writes it, which is what [date.strftime] hands
    back on Linux: the year in decimal and not padded, so [999] for the
    year 999 and four digits from the year 1000 on.  (Python from 3.13 on
    pads to four digits itself; the two agree from 1000 on.)  A date has a
    year of at most four digits. *)
Definition year_digits (y : Z) : str :=
  if y <? 10 then zfill 1 y
  else if y <? 100 then zfill 2 y
  else if y <? 1000 then zfill 3 y
  else zfill 4 y.

(** [d.strftime("%Y-%m-%d")]; [%m] and [%d] are zero-padded to two
    digits. *)
Definition strftime_ymd (d : date) : str :=
  year_digits (year d) ++ cps "-" ++ zfill 2 (month d) ++ cps "-"
  ++ zfill 2 (day d).

End Datetime.
Import Datetime.


(** ** The regular expressions of [_strptime]

  [TimeRE] turns a format into a regular expression built from literals,
  character classes, concatenation, alternation and named groups only.
  [exec] lists the ways a pattern matches a prefix of the input, in the
  order a backtracking matcher tries them, so [re.match] is the head of
  that list. *)

Module Re.

Inductive re :=
| Chr (c : ascii)               (* one literal character *)
| Range (lo hi : ascii)         (* [lo-hi] *)
| Digit                         (* \d *)
| Cat (r1 r2 : re)
| Alt (r1 r2 : re)
| Group (name : string) (r : re).

Definition groupdict := list (string * str).

(** One way of matching: the text matched, the groups set, the rest. *)
Definition way : Type := str * groupdict * str.

Section Exec.

(** [\d] in a [str] pattern is any Unicode decimal digit.  The ASCII ones
    are fixed; [unicode_decimal] is the interpreter's table of the others
    and of their values (category Nd, code points from 128 on). *)
Variable unicode_decimal : N -> option N.

Definition digit_value (c : N) : option N :=
  if ((48 <=? c) && (c <=? 57))%N then Some (c - 48)%N
  else if (c <? 128)%N then None
  else unicode_decimal c.

Definition is_decimal (c : N) : bool :=
  match digit_value c with Some _ => true | None => false end.

Definition one (p : N -> bool) (s : str) : list way :=
  match s with
  | c :: t => if p c then [([c], [], t)] else []
  | [] => []
  end.

Definition in_range (lo hi : ascii) (c : N) : bool :=
  ((N_of_ascii lo <=? c) && (c <=? N_of_ascii hi))%N.

Fixpoint exec (r : re) (s : str) : list way :=
  match r with
  | Chr c => one (N.eqb (N_of_ascii c)) s
  | Range lo hi => one (in_range lo hi) s
  | Digit => one is_decimal s
  | Cat r1 r2 =>
      flat_map (fun '(m1, g1, t1) =>
                  map (fun '(m2, g2, t2) => (m1 ++ m2, g1 ++ g2, t2))
                      (exec r2 t1))
               (exec r1 s)
  | Alt r1 r2 => exec r1 s ++ exec r2 s
  | Group name r1 =>
      map (fun '(m, g, t) => (m, (name, m) :: g, t)) (exec r1 s)
  end.

(** [pattern.match(s)]: the first way, if there is one. *)
Definition re_match (r : re) (s : str) : option way := hd_error (exec r s).

End Exec.

Fixpoint group (g : groupdict) (name : string) : option str :=
  match g with
  | [] => None
  | (n, v) :: g' => if String.eqb n name then Some v else group g' name
  end.

End Re.
Import Re.

(** ** Exceptions and the world

  A Python call either returns a value or raises.  Calls into the driver
  also act on the world, so an effectful computation takes a world and
  gives an outcome and the world after it. *)

Module Py.

Inductive exn :=
| ValueError
| ValidationError                          (* pydantic refusing a field *)
| HTTPException (status_code : Z) (detail : str)
| Psycopg2Error (message : str).

Inductive outcome (A : Type) :=
| Return (a : A)
| Raise (e : exn).

Arguments Return {A} a.
Arguments Raise {A} e.

(** JSON documents as the Python objects [json.loads] builds. *)
#[local] Set Warnings "-register-all".
Inductive pyobj :=
| PyNone
| PyBool (b : bool)
| PyInt (n : Z)
| PyFloat (bits : N)            (* a binary64 value, by its bit pattern *)
| PyStr (s : str)
| PyList (items : list pyobj)
| PyDict (items : list (str * pyobj)).

End Py.
Import Py.

(** ** [datetime.strptime(data_string, "%Y-%m-%d")] *)

Module Strptime.

(** The entries of [TimeRE] for the three directives of the format:
    [(?P<Y>\d\d\d\d)], [(?P<m>1[0-2]|0[1-9]|[1-9])] and
    [(?P<d>3[0-1]|[1-2]\d|0[1-9]|[1-9]| [1-9])]. *)
Definition directive_Y : re :=
  Group "Y" (Cat Digit (Cat Digit (Cat Digit Digit))).

Definition directive_m : re :=
  Group "m" (Alt (Cat (Chr "1") (Range "0" "2"))
            (Alt (Cat (Chr "0") (Range "1" "9"))
                 (Range "1" "9"))).

Definition directive_d : re :=
  Group "d" (Alt (Cat (Chr "3") (Range "0" "1"))
            (Alt (Cat (Range "1" "2") Digit)
            (Alt (Cat (Chr "0") (Range "1" "9"))
            (Alt (Range "1" "9")
                 (Cat (Chr " ") (Range "1" "9")))))).

(** [_TimeRE_cache.compile("%Y-%m-%d")]. *)
Definition format_regex : re :=
  Cat directive_Y (Cat (Chr "-") (Cat directive_m (Cat (Chr "-") directive_d))).

Section Strptime.

Variable unicode_decimal : N -> option N.

(** [int(text)] on the texts a group of [format_regex] can hold: decimal
    digits, after blanks that [int] strips.  [None] is its [ValueError]. *)
Fixpoint lstrip (s : str) : str :=
  match s with
  | c :: t => if (c =? 32)%N then lstrip t else s
  | [] => []
  end.

Fixpoint digits_value (acc : Z) (s : str) : option Z :=
  match s with
  | [] => Some acc
  | c :: t =>
      match digit_value unicode_decimal c with
      | Some v => digits_value (10 * acc + Z.of_N v) t
      | None => None
      end
  end.

Definition int (text : str) : option Z :=
  match lstrip text with
  | [] => None
  | ds => digits_value 0 ds
  end.

Definition int_group (g : groupdict) (name : string) : option Z :=
  match group g name with
  | Some text => int text
  | None => None
  end.

(** [_strptime], and [.date()] of what [strptime] builds from it: match
    the pattern at the start of [data_string], refuse unconverted data
    after the match, convert the groups, and build the date, whose
    constructor checks the fields. *)
Definition _strptime (data_string : str) : outcome date :=
  match re_match unicode_decimal format_regex data_string with
  | None => Raise ValueError
  | Some (found, found_dict, _) =>
      if negb (List.length data_string =? List.length found)%nat then Raise ValueError
      else
        match int_group found_dict "Y", int_group found_dict "m",
              int_group found_dict "d" with
        | Some y, Some m, Some d =>
            match new_date y m d with
            | Some dt => Return dt
            | None => Raise ValueError
            end
        | _, _, _ => Raise ValueError
        end
  end.

End Strptime.

End Strptime.
Import Strptime.

(** ** The store and the driver

  The table [solutions] of the PostgreSQL store, and psycopg2 as the
  service uses it.  The world keeps what the driver has been asked to do:
  every call is appended to [trace], a connection attempt included. *)

Module Solutions.

(** A row as the cursor hands it over.  The schema is not the service's:
    [game_id] and [editor] may be NULL, which the driver gives as [None].
    A row that the query matched has a date, and a NULL [categories] is
    the object [None]. *)
Record row := mkrow {
  game_date : date;
  game_id : option Z;
  editor : option str;
  categories : pyobj
}.

End Solutions.

Module Psycopg2.

(** The state of the store during a request: no connection can be made;
    connections are accepted but the statement fails and leaves the
    connection usable (a syntax error, a missing relation); connections
    are accepted but the connection breaks while the statement runs (the
    server or the network goes away); or statements are answered from the
    rows of [solutions], in table order.  The text carried by a failure is
    [str(e)] of the [psycopg2.Error] raised. *)
Inductive store :=
| ConnectFails (message : str)
| QueryFails (message : str)
| ConnectionLost (message : str)
| Serving (solutions : list Solutions.row).

(** A value bound to a [%s] placeholder. *)
Inductive sqlvalue :=
| SqlDate (d : date).

Inductive event :=
| Connect (conn : option nat)              (* [None]: the attempt raised *)
| Cursor (conn cur : nat)
| Execute (cur : nat) (query : str) (vars : list sqlvalue)
| Fetchone (cur : nat)
| Rollback (conn : nat)
| Close (conn : nat).

(** A cursor object knows its connection. *)
Record cursor_object := mkcursor { connection : nat; cursor_id : nat }.

Record world := mkworld {
  next_id : nat;                               (* next fresh object *)
  result_sets : list (nat * list Solutions.row);  (* rows left, by cursor *)
  closed : list nat;                  (* connections closed or broken *)
  trace : list event
}.

Definition M (A : Type) : Type := world -> outcome A * world.

Definition ret {A} (a : A) : M A := fun w => (Return a, w).

Definition raise {A} (e : exn) : M A := fun w => (Raise e, w).

Definition bind {A B} (m : M A) (k : A -> M B) : M B :=
  fun w =>
    match m w with
    | (Return a, w1) => k a w1
    | (Raise e, w1) => (Raise e, w1)
    end.

(** A pure call that may raise. *)
Definition lift {A} (o : outcome A) : M A := fun w => (o, w).

Definition log (e : event) (w : world) : world :=
  mkworld (next_id w) (result_sets w) (closed w) (trace w ++ [e]).

Definition fresh (w : world) : nat * world :=
  (next_id w, mkworld (S (next_id w)) (result_sets w) (closed w) (trace w)).

Definition set_result (cur : nat) (rows : list Solutions.row) (w : world) : world :=
  mkworld (next_id w) ((cur, rows) :: result_sets w) (closed w) (trace w).

Fixpoint result_of (cur : nat) (rs : list (nat * list Solutions.row))
  : list Solutions.row :=
  match rs with
  | [] => []
  | (c, rows) :: rs' => if (c =? cur)%nat then rows else result_of cur rs'
  end.

Fixpoint without (conn : nat) (l : list nat) : list nat :=
  match l with
  | [] => []
  | c :: l' => if (c =? conn)%nat then without conn l' else c :: without conn l'
  end.

Definition is_closed (conn : nat) (w : world) : bool :=
  existsb (Nat.eqb conn) (closed w).

Definition set_closed (conn : nat) (w : world) : world :=
  mkworld (next_id w) (result_sets w) (conn :: closed w) (trace w).

Definition set_open (conn : nat) (w : world) : world :=
  mkworld (next_id w) (result_sets w) (without conn (closed w)) (trace w).

(** [psycopg2.connect], called with the keywords of [DATABASE_CONFIG]: a
    new connection object, open. *)
Definition connect (db : store) : M nat :=
  fun w =>
    match db with
    | ConnectFails message =>
        (Raise (Psycopg2Error message), log (Connect None) w)
    | _ =>
        let (conn, w1) := fresh w in
        (Return conn, log (Connect (Some conn)) (set_open conn w1))
    end.

(** [conn.cursor(cursor_factory=RealDictCursor)]: a cursor with no result
    yet, whose rows are read by column name.  The service calls it on a
    connection it has just made. *)
Definition cursor (conn : nat) : M cursor_object :=
  fun w =>
    let (cur, w1) := fresh w in
    (Return (mkcursor conn cur), log (Cursor conn cur) (set_result cur [] w1)).

(** The one statement the service sends, as the store answers it: the
    rows whose [game_date] equals the bound date. *)
Definition select_by_date : str := cps "
            SELECT game_date, game_id, editor, categories
            FROM solutions 
            WHERE game_date = %s
        ".

(** [None]: a statement or a binding the store has no answer for. *)
Definition answer (solutions : list Solutions.row) (query : str)
  (vars : list sqlvalue) : option (list Solutions.row) :=
  if str_eqb query select_by_date then
    match vars with
    | [SqlDate d] =>
        Some (filter (fun r => date_eqb (Solutions.game_date r) d) solutions)
    | _ => None
    end
  else None.

(** [cursor.execute(query, vars)].  When the connection is lost under the
    statement the driver raises and the connection object is closed from
    then on. *)
Definition execute (db : store) (cur : cursor_object) (query : str)
  (vars : list sqlvalue) : M unit :=
  fun w =>
    let w1 := log (Execute (cursor_id cur) query vars) w in
    match db with
    | ConnectFails message | QueryFails message =>
        (Raise (Psycopg2Error message), w1)
    | ConnectionLost message =>
        (Raise (Psycopg2Error message), set_closed (connection cur) w1)
    | Serving solutions =>
        match answer solutions query vars with
        | Some rows => (Return tt, set_result (cursor_id cur) rows w1)
        | None => (Raise (Psycopg2Error (cps "ProgrammingError")), w1)
        end
    end.

(** [cursor.fetchone()]: the next row of the result, or [None]. *)
Definition fetchone (cur : cursor_object) : M (option Solutions.row) :=
  fun w =>
    let w1 := log (Fetchone (cursor_id cur)) w in
    match result_of (cursor_id cur) (result_sets w1) with
    | [] => (Return None, w1)
    | r :: rest => (Return (Some r), set_result (cursor_id cur) rest w1)
    end.

(** [conn.rollback()]: on a connection that is closed or broken the driver
    raises [InterfaceError], a [psycopg2.Error]. *)
Definition rollback (conn : nat) : M unit :=
  fun w =>
    let w1 := log (Rollback conn) w in
    if is_closed conn w1
    then (Raise (Psycopg2Error (cps "connection already closed")), w1)
    else (Return tt, w1).

(** [conn.close()]: closing twice is allowed. *)
Definition close (conn : nat) : M unit :=
  fun w => (Return tt, set_closed conn (log (Close conn) w)).

(** The connections a trace leaves open. *)
Fixpoint open_after (opened : list nat) (t : list event) : list nat :=
  match t with
  | [] => opened
  | Connect (Some conn) :: t' => open_after (conn :: opened) t'
  | Close conn :: t' => open_after (remove Nat.eq_dec conn opened) t'
  | _ :: t' => open_after opened t'
  end.

End Psycopg2.
Import Psycopg2.

Declare Scope py_scope.
Delimit Scope py_scope with py.
Notation "x <- m ;; k" := (bind m (fun x => k))
  (at level 61, m at next level, right associativity) : py_scope.
Notation "m ;; k" := (bind m (fun _ => k))
  (at level 61, right associativity) : py_scope.

(** [try: ... except psycopg2.Error as e: ...] and [try: ... finally: ...]. *)
Definition except_psycopg2 {A} (m : M A) (handler : str -> M A) : M A :=
  fun w =>
    match m w with
    | (Raise (Psycopg2Error e), w1) => handler e w1
    | r => r
    end.

Definition finally {A} (m : M A) (final : M unit) : M A :=
  fun w =>
    let (o, w1) := m w in
    match final w1 with
    | (Return _, w2) => (o, w2)
    | (Raise e, w2) => (Raise e, w2)
    end.

(** ** [main.py] *)

Module Main.

(** The response model; [categories] is typed [Any]. *)
Record ConnectionsGame := mkgame {
  id : Z;
  print_date : str;
  editor : str;
  categories : pyobj
}.

(** [ConnectionsGame(id=..., print_date=..., editor=..., categories=...)]:
    pydantic refuses [None] for [id : int] and for [editor : str], and
    takes any value for [categories : Any]. *)
Definition ConnectionsGame_init (id : option Z) (print_date : str)
  (editor : option str) (categories : pyobj) : outcome ConnectionsGame :=
  match id, editor with
  | Some id, Some editor => Return (mkgame id print_date editor categories)
  | _, _ => Raise ValidationError
  end.

(** What FastAPI sends back: a handler's return value with status 200, an
    [HTTPException] as its status with the body [{"detail": detail}], and
    any other exception as the plain 500 of the server. *)
Inductive content :=
| Model (game : ConnectionsGame)
| Json (value : pyobj)
| Text (s : str).

Record response := mkresponse { status : Z; body : content }.

Definition detail_body (detail : str) : content :=
  Json (PyDict [(cps "detail", PyStr detail)]).

Definition respond {A} (wrap : A -> content) (o : outcome A) : response :=
  match o with
  | Return a => mkresponse 200 (wrap a)
  | Raise (HTTPException status_code detail) =>
      mkresponse status_code (detail_body detail)
  | Raise _ => mkresponse 500 (Text (cps "Internal Server Error"))
  end.

(** The routes of [app].  [GET_connections date] is the handler called
    with [date]; the router calls it for the paths [/v1/connections/]
    followed by one segment, which is not empty and holds no slash (see
    [path_segment]), and answers any other path itself. *)
Inductive request :=
| GET_connections (date : str)
| GET_health
| GET_root.

Section Service.

Variable unicode_decimal : N -> option N.
Variable db : store.

Local Open Scope py_scope.

(** The generator behind [@contextmanager], with [with_body] run at its
    [yield]: what the body returns or raises comes back into the [try].
    [conn] is the local of that name, [None] until [connect] returns. *)
Definition get_db_connection {A} (with_body : nat -> M A) : M A :=
  fun w =>
    let '(tried, conn, w1) :=
      match connect db w with
      | (Return c, w') => let (o, w'') := with_body c w' in (o, Some c, w'')
      | (Raise e, w') => (Raise e, None, w')
      end in
    finally
      (except_psycopg2 (lift tried)
         (fun e =>
            match conn with Some c => rollback c | None => ret tt end ;;
            raise (HTTPException 500 (cps "Database error: " ++ e))))
      (match conn with Some c => close c | None => ret tt end)
      w1.

Definition parse_date_string (date_str : str) : outcome Datetime.date :=
  match _strptime unicode_decimal date_str with
  | Raise ValueError =>
      Raise (HTTPException 400 (cps "Invalid date format. Expected YYYY-MM-DD"))
  | o => o
  end.

Definition get_connections_game (date : str) : M ConnectionsGame :=
  parsed_date <- lift (parse_date_string date) ;;
  get_db_connection (fun conn =>
    cursor <- cursor conn ;;
    execute db cursor select_by_date [SqlDate parsed_date] ;;
    result <- fetchone cursor ;;
    match result with
    | None =>
        raise (HTTPException 404 (cps "No game data found for date " ++ date))
    | Some result =>
        let categories_data := Solutions.categories result in
        lift (ConnectionsGame_init
                (Solutions.game_id result)
                (strftime_ymd (Solutions.game_date result))
                (Solutions.editor result)
                categories_data)
    end).

Definition health_check : M pyobj :=
  ret (PyDict [(cps "status", PyStr (cps "healthy"))]).

Definition root : M pyobj :=
  ret (PyDict [(cps "message", PyStr (cps "NYTimes Connections API"));
               (cps "version", PyStr (cps "1.0.0"));
               (cps "endpoints",
                PyDict [(cps "get_game", PyStr (cps "/v1/connections/{date}"));
                        (cps "health", PyStr (cps "/health"))])]).

(** One request served: the handler of the route, then [respond]. *)
Definition app (req : request) : world -> response * world :=
  fun w =>
    match req with
    | GET_connections date =>
        let (o, w1) := get_connections_game date w in (respond Model o, w1)
    | GET_health =>
        let (o, w1) := health_check w in (respond Json o, w1)
    | GET_root =>
        let (o, w1) := root w in (respond Json o, w1)
    end.

End Service.

End Main.
Import Main.

(** ** The notions the properties are stated with *)

Module Spec.

Definition ascii_digit (c : N) : bool := ((48 <=? c) && (c <=? 57))%N.

Fixpoint number (acc : Z) (ds : str) : Z :=
  match ds with
  | [] => acc
  | c :: t => number (10 * acc + (Z.of_N c - 48)) t
  end.

(** A string read strictly as [YYYY-MM-DD]: ten characters, ASCII digits
    around two hyphens, naming a day that exists in a year from 0001 to
    9999. *)
Definition strict_ymd (s : str) : option date :=
  match s with
  | [y1; y2; y3; y4; h1; m1; m2; h2; d1; d2] =>
      if forallb ascii_digit [y1; y2; y3; y4; m1; m2; d1; d2]
         && (h1 =? 45)%N && (h2 =? 45)%N
      then new_date (number 0 [y1; y2; y3; y4]) (number 0 [m1; m2])
                    (number 0 [d1; d2])
      else None
  | _ => None
  end.

Definition valid_ymd (s : str) : bool :=
  match strict_ymd s with Some _ => true | None => false end.

(** What [strptime] accepts, read off the string without a pattern:
    split at the hyphens, the string has three fields, year, month and
    day.  The year is four decimal digits.  The month is one or two ASCII
    digits making a number from 1 to 12.  The day is one or two ASCII
    digits making a number from 1 to 31, or a blank before one such digit;
    after a first digit 1 or 2 the second may be any decimal digit. *)
Fixpoint split_hyphen (s : str) : list str :=
  match s with
  | [] => [[]]
  | c :: t =>
      if (c =? 45)%N then [] :: split_hyphen t
      else match split_hyphen t with
           | f :: fs => (c :: f) :: fs
           | [] => [[c]]
           end
  end.

Definition hyphen_free (F : str) : Prop := Forall (fun c => c <> 45%N) F.

Definition between (lo hi v : Z) : option Z :=
  if (lo <=? v) && (v <=? hi) then Some v else None.

Section Lenient.

Variable unicode_decimal : N -> option N.

Definition year_text (Y : str) : option Z :=
  match Y with
  | [_; _; _; _] => digits_value unicode_decimal 0 Y
  | _ => None
  end.

Definition month_text (M : str) : option Z :=
  match M with
  | [a] => if ascii_digit a then between 1 12 (number 0 M) else None
  | [a; b] =>
      if ascii_digit a && ascii_digit b then between 1 12 (number 0 M)
      else None
  | _ => None
  end.

Definition day_text (D : str) : option Z :=
  match D with
  | [a] => if ascii_digit a then between 1 31 (number 0 D) else None
  | [a; b] =>
      if (a =? 32)%N then
        if ascii_digit b then between 1 9 (number 0 [b]) else None
      else if (a =? 49)%N || (a =? 50)%N then digits_value unicode_decimal 0 D
      else if ascii_digit a && ascii_digit b then between 1 31 (number 0 D)
      else None
  | _ => None
  end.

Definition lenient_ymd (s : str) : option date :=
  match split_hyphen s with
  | [Y; M; D] =>
      match year_text Y, month_text M, day_text D with
      | Some y, Some m, Some d => new_date y m d
      | _, _, _ => None
      end
  | _ => None
  end.

End Lenient.

(** The record of a date: the first row of the table with that date. *)
Definition record_for (solutions : list Solutions.row) (d : date)
  : option Solutions.row :=
  find (fun r => date_eqb (Solutions.game_date r) d) solutions.

(** The diagnostic of a store that fails. *)
Definition store_error (db : store) : option str :=
  match db with
  | ConnectFails message | QueryFails message | ConnectionLost message =>
      Some message
  | Serving _ => None
  end.

(** What the route [/v1/connections/{date}] binds to [date]: a segment of
    the path, not empty and without a slash. *)
Definition path_segment (s : str) : bool :=
  match s with
  | [] => false
  | _ => forallb (fun c => negb (c =? 47)%N) s
  end.

(** The calls of a request that reaches the statement, up to it. *)
Definition calls_to_statement (w : world) (d : date) : list event :=
  [Connect (Some (next_id w)); Cursor (next_id w) (S (next_id w));
   Execute (S (next_id w)) select_by_date [SqlDate d]].

(** The response built from a row that was found. *)
Definition row_response (r : Solutions.row) : response :=
  respond Model (ConnectionsGame_init (Solutions.game_id r)
                   (strftime_ymd (Solutions.game_date r))
                   (Solutions.editor r) (Solutions.categories r)).

(** The driver calls made between two worlds. *)
Definition events_of (before after : world) : list event :=
  skipn (List.length (trace before)) (trace after).

Definition is_connect (e : event) : bool :=
  match e with Connect _ => true | _ => false end.

Definition is_execute (e : event) : bool :=
  match e with Execute _ _ _ => true | _ => false end.

Definition attempts (evs : list event) : nat :=
  List.length (filter is_connect evs).

Definition statements (evs : list event) : nat :=
  List.length (filter is_execute evs).

(** The statements sent, each with the values bound to it. *)
Definition queries (evs : list event) : list (str * list sqlvalue) :=
  flat_map (fun e => match e with
                     | Execute _ query vars => [(query, vars)]
                     | _ => []
                     end) evs.

End Spec.
Import Spec.

(** ** The scenarios of the specification *)

Module Scenario.

(** An interpreter whose only decimal digits are the ASCII ones. *)
Definition ascii_only : N -> option N := fun _ => None.

(** A process that has not called the driver yet. *)
Definition fresh_world : world := mkworld 0 [] [] [].

(** The record of 2024-06-12. *)
Definition fruits : pyobj :=
  PyList [PyDict [(cps "title", PyStr (cps "FRUITS"));
                  (cps "level", PyInt 0);
                  (cps "words", PyList [PyStr (cps "APPLE"); PyStr (cps "PEAR");
                                        PyStr (cps "PLUM"); PyStr (cps "KIWI")])]].

Definition june_12 : Solutions.row :=
  Solutions.mkrow (mkdate 2024 6 12) (Some 500) (Some (cps "Wyna Liu")) fruits.

(** A record of the year 999, and one whose editor is NULL. *)
Definition year_999 : Solutions.row :=
  Solutions.mkrow (mkdate 999 2 3) (Some 7) (Some (cps "Anon")) PyNone.

Definition no_editor : Solutions.row :=
  Solutions.mkrow (mkdate 2024 6 13) (Some 501) None PyNone.

End Scenario.
Import Scenario.

(** ** Requests served one after another *)

Module Session.

Definition is_rollback (e : event) : bool :=
  match e with Rollback _ => true | _ => false end.

Definition is_fetchone (e : event) : bool :=
  match e with Fetchone _ => true | _ => false end.

Definition rollbacks (evs : list event) : nat :=
  List.length (filter is_rollback evs).

Definition fetches (evs : list event) : nat :=
  List.length (filter is_fetchone evs).

Section Session.

Variable unicode_decimal : N -> option N.

(** The server answers the requests in turn, each in the world the one
    before left; the store may have changed between two of them, so each
    request comes with the state of the store when it is served. *)
Fixpoint serve_all (steps : list (store * request)) (w : world)
  : list response * world :=
  match steps with
  | [] => ([], w)
  | (db, req) :: rest =>
      let (r, w1) := app unicode_decimal db req w in
      let (rs, w2) := serve_all rest w1 in
      (r :: rs, w2)
  end.

(** The requests that ask the store: those for a date the parser reads. *)
Definition reaches_store (step : store * request) : bool :=
  match snd step with
  | GET_connections s =>
      match lenient_ymd unicode_decimal s with
      | Some _ => true
      | None => false
      end
  | GET_health | GET_root => false
  end.

End Session.

End Session.
Import Session.

(** * Properties *)

(** ** What [strptime] accepts *)

Ltac b2p :=
  repeat match goal with
  | H : (_ && _)%bool = true |- _ => apply andb_true_iff in H; destruct H
  | H : (_ && _)%bool = false |- _ => apply andb_false_iff in H; destruct H
  | H : (_ || _)%bool = true |- _ => apply orb_true_iff in H; destruct H
  | H : (_ || _)%bool = false |- _ => apply orb_false_iff in H; destruct H
  | H : negb _ = true |- _ => apply negb_true_iff in H
  | H : negb _ = false |- _ => apply negb_false_iff in H
  | H : (_ <=? _)%N = true |- _ => apply N.leb_le in H
  | H : (_ <=? _)%N = false |- _ => apply N.leb_gt in H
  | H : (_ <? _)%N = true |- _ => apply N.ltb_lt in H
  | H : (_ <? _)%N = false |- _ => apply N.ltb_ge in H
  | H : (_ =? _)%N = true |- _ => apply N.eqb_eq in H
  | H : (_ =? _)%N = false |- _ => apply N.eqb_neq in H
  | H : (_ <=? _)%Z = true |- _ => apply Z.leb_le in H
  | H : (_ <=? _)%Z = false |- _ => apply Z.leb_gt in H
  | H : (_ =? _)%Z = true |- _ => apply Z.eqb_eq in H
  | H : (_ =? _)%Z = false |- _ => apply Z.eqb_neq in H
  end.

#[local] Arguments Z.mul : simpl never.
#[local] Arguments Z.add : simpl never.
#[local] Arguments Z.sub : simpl never.
#[local] Arguments Z.of_N : simpl never.
#[local] Arguments N.sub : simpl never.
#[local] Arguments N.eqb : simpl never.
#[local] Arguments N.leb : simpl never.
#[local] Arguments N.ltb : simpl never.

Ltac split_if :=
  match goal with
  | H : context [if ?b then _ else _] |- _ => destruct b eqn:?
  | |- context [if ?b then _ else _] => destruct b eqn:?
  end.

Ltac in_cases H :=
  repeat match type of H with
         | _ \/ _ => destruct H as [H | H]
         | False => contradiction
         | (_, _, _) = (_, _, _) => injection H as <- <- <-
         end.

Section Parsing.

Variable unicode_decimal : N -> option N.

#[local] Abbreviation exec' := (exec unicode_decimal).
#[local] Abbreviation dec := (is_decimal unicode_decimal).

(** [strptime] returns a date or raises [ValueError], nothing else. *)
Lemma strptime_outcome s :
  (exists d, _strptime unicode_decimal s = Return d)
  \/ _strptime unicode_decimal s = Raise ValueError.
Proof.
  unfold _strptime.
  destruct (re_match _ _ _) as [[[found gd] rest] |]; [| now right].
  destruct (negb _); [now right |].
  destruct (int_group _ gd "Y"); [| now right].
  destruct (int_group _ gd "m"); [| now right].
  destruct (int_group _ gd "d"); [| now right].
  destruct (new_date _ _ _); [left; eauto | now right].
Qed.

Lemma exec_Y s :
  exec' directive_Y s
  = match s with
    | a :: b :: c :: d :: t =>
        if dec a && dec b && dec c && dec d
        then [([a; b; c; d], [("Y"%string, [a; b; c; d])], t)] else []
    | _ => []
    end.
Proof.
  destruct s as [| a [| b [| c [| d t]]]]; cbn.
  - reflexivity.
  - now destruct (dec a).
  - destruct (dec a); cbn; [| reflexivity]. now destruct (dec b).
  - destruct (dec a); cbn; [| reflexivity].
    destruct (dec b); cbn; [| reflexivity]. now destruct (dec c).
  - destruct (dec a); cbn; [| reflexivity].
    destruct (dec b); cbn; [| reflexivity].
    destruct (dec c); cbn; [| reflexivity]. now destruct (dec d).
Qed.

Lemma exec_sound r : forall s m g t, In (m, g, t) (exec' r s) -> s = m ++ t.
Proof.
  induction r as [c | lo hi | | r1 IH1 r2 IH2 | r1 IH1 r2 IH2 | name r IH];
    intros s m g t H; cbn in H.
  1-3: destruct s as [| x s]; cbn in H; [contradiction |];
       match type of H with context [if ?b then _ else _] => destruct b end;
       cbn in H; [destruct H as [H | []]; now inversion H | contradiction].
  - apply in_flat_map in H. destruct H as [[[m1 g1] t1] [H1 H2]].
    apply in_map_iff in H2. destruct H2 as [[[m2 g2] t2] [E H2]].
    inversion E; subst. rewrite (IH1 _ _ _ _ H1), (IH2 _ _ _ _ H2).
    now rewrite app_assoc.
  - apply in_app_iff in H. destruct H; eauto.
  - apply in_map_iff in H. destruct H as [[[m' g'] t'] [E H]].
    inversion E; subst. eauto.
Qed.

Lemma ascii_digit_iff c : ascii_digit c = true <-> (48 <= c <= 57)%N.
Proof.
  unfold ascii_digit. rewrite andb_true_iff, !N.leb_le. tauto.
Qed.

Lemma between_iff lo hi v v' :
  between lo hi v = Some v' <-> v' = v /\ lo <= v <= hi.
Proof.
  unfold between. destruct ((lo <=? v) && (v <=? hi)) eqn:E.
  - b2p. split; [intros [= <-]; lia | intros [-> _]; reflexivity].
  - split; [discriminate |]. intros [_ [H1 H2]].
    apply Z.leb_le in H1, H2. rewrite H1, H2 in E. discriminate.
Qed.

Lemma digit_value_ascii c :
  (48 <= c <= 57)%N -> digit_value unicode_decimal c = Some (c - 48)%N.
Proof.
  intros [H1 H2]. unfold digit_value.
  apply N.leb_le in H1, H2. now rewrite H1, H2.
Qed.

Lemma digit_value_low c :
  (c < 48)%N -> digit_value unicode_decimal c = None.
Proof.
  intros H. unfold digit_value.
  destruct (48 <=? c)%N eqn:E1; b2p; [lia |]. cbn.
  destruct (c <? 128)%N eqn:E2; b2p; [reflexivity | lia].
Qed.

(** The shapes of a month and of a day, case by case. *)
Lemma month_text_cases M v :
  month_text M = Some v <->
  (exists a, M = [a] /\ (49 <= a <= 57)%N /\ v = Z.of_N a - 48)
  \/ (exists b, M = [48%N; b] /\ (49 <= b <= 57)%N /\ v = Z.of_N b - 48)
  \/ (exists b, M = [49%N; b] /\ (48 <= b <= 50)%N /\ v = Z.of_N b - 38).
Proof.
  unfold month_text. split.
  - destruct M as [| a [| b [| c M]]]; try discriminate.
    + destruct (ascii_digit a) eqn:Ea; [| discriminate].
      apply ascii_digit_iff in Ea. intros H. apply between_iff in H. cbn [number] in H.
      left. exists a. repeat split; lia.
    + destruct (ascii_digit a) eqn:Ea; [| discriminate].
      destruct (ascii_digit b) eqn:Eb; [| discriminate].
      apply ascii_digit_iff in Ea, Eb. cbn [andb].
      intros H. apply between_iff in H. cbn [number] in H.
      assert (a = 48 \/ a = 49)%N as [-> | ->] by lia.
      * right; left. exists b. repeat split; lia.
      * right; right. exists b. repeat split; lia.
  - intros [[a [-> [H ->]]] | [[b [-> [H ->]]] | [b [-> [H ->]]]]].
    + replace (ascii_digit a) with true by (symmetry; apply ascii_digit_iff; lia).
      apply between_iff. cbn [number]. lia.
    + replace (ascii_digit b) with true by (symmetry; apply ascii_digit_iff; lia).
      cbn [ascii_digit N.leb N.compare Pos.compare Pos.compare_cont andb].
      apply between_iff. cbn [number]. lia.
    + replace (ascii_digit b) with true by (symmetry; apply ascii_digit_iff; lia).
      cbn [ascii_digit N.leb N.compare Pos.compare Pos.compare_cont andb].
      apply between_iff. cbn [number]. lia.
Qed.

Lemma day_text_cases D v :
  day_text unicode_decimal D = Some v <->
  (exists a, D = [a] /\ (49 <= a <= 57)%N /\ v = Z.of_N a - 48)
  \/ (exists b, D = [32%N; b] /\ (49 <= b <= 57)%N /\ v = Z.of_N b - 48)
  \/ (exists b, D = [48%N; b] /\ (49 <= b <= 57)%N /\ v = Z.of_N b - 48)
  \/ (exists a b vb, D = [a; b] /\ (49 <= a <= 50)%N
                     /\ digit_value unicode_decimal b = Some vb
                     /\ v = 10 * (Z.of_N a - 48) + Z.of_N vb)
  \/ (exists b, D = [51%N; b] /\ (48 <= b <= 49)%N /\ v = Z.of_N b - 18).
Proof.
  unfold day_text. split.
  - destruct D as [| a [| b [| c D]]]; try discriminate.
    + destruct (ascii_digit a) eqn:Ea; [| discriminate].
      apply ascii_digit_iff in Ea. intros H. apply between_iff in H.
      cbn [number] in H. left. exists a. repeat split; lia.
    + destruct (a =? 32)%N eqn:E32; b2p.
      * subst a. destruct (ascii_digit b) eqn:Eb; [| discriminate].
        apply ascii_digit_iff in Eb. intros H. apply between_iff in H.
        cbn [number] in H. right; left. exists b. repeat split; lia.
      * destruct ((a =? 49)%N || (a =? 50)%N) eqn:E12.
        -- apply orb_true_iff in E12.
           assert (49 <= a <= 50)%N as Ha by (destruct E12; b2p; lia).
           cbn [digits_value]. rewrite (digit_value_ascii a) by lia.
           destruct (digit_value unicode_decimal b) as [vb |] eqn:Eb;
             [| discriminate].
           intros [= <-]. right; right; right; left.
           exists a, b, vb. repeat split; try assumption; lia.
        -- b2p. destruct (ascii_digit a) eqn:Ea; [| discriminate].
           destruct (ascii_digit b) eqn:Eb; [| discriminate].
           apply ascii_digit_iff in Ea, Eb. cbn [andb].
           intros Hv. apply between_iff in Hv. cbn [number] in Hv.
           assert (a = 48 \/ a = 51)%N as [-> | ->] by lia.
           ++ right; right; left. exists b. repeat split; lia.
           ++ right; right; right; right. exists b. repeat split; lia.
  - intros [[a [-> [H ->]]] | [[b [-> [H ->]]] | [[b [-> [H ->]]]
           | [[a [b [vb [-> [H [Hb ->]]]]]] | [b [-> [H ->]]]]]]].
    + replace (ascii_digit a) with true by (symmetry; apply ascii_digit_iff; lia).
      apply between_iff. cbn [number]. lia.
    + replace (ascii_digit b) with true by (symmetry; apply ascii_digit_iff; lia).
      rewrite N.eqb_refl. apply between_iff. cbn [number]. lia.
    + replace (ascii_digit b) with true by (symmetry; apply ascii_digit_iff; lia).
      change ((48 =? 32)%N) with false. cbv iota.
      change ((48 =? 49)%N || (48 =? 50)%N) with false. cbv iota.
      change (ascii_digit 48) with true. cbn [andb].
      apply between_iff. cbn [number]. lia.
    + replace (a =? 32)%N with false by (symmetry; apply N.eqb_neq; lia).
      replace ((a =? 49)%N || (a =? 50)%N) with true.
      * cbn [digits_value]. rewrite (digit_value_ascii a) by lia.
        rewrite Hb. f_equal. lia.
      * symmetry. apply orb_true_iff. rewrite !N.eqb_eq. lia.
    + replace (ascii_digit b) with true by (symmetry; apply ascii_digit_iff; lia).
      change ((51 =? 32)%N) with false. cbv iota.
      change ((51 =? 49)%N || (51 =? 50)%N) with false. cbv iota.
      change (ascii_digit 51) with true. cbn [andb].
      apply between_iff. cbn [number]. lia.
Qed.

Lemma decimal_value c :
  dec c = true <-> exists v, digit_value unicode_decimal c = Some v.
Proof.
  unfold is_decimal. destruct (digit_value unicode_decimal c).
  - split; eauto.
  - split; [discriminate | intros [v [=]]].
Qed.

Lemma year_text_cases Y y :
  year_text unicode_decimal Y = Some y <->
  exists a b c d va vb vc vd,
    Y = [a; b; c; d]
    /\ digit_value unicode_decimal a = Some va
    /\ digit_value unicode_decimal b = Some vb
    /\ digit_value unicode_decimal c = Some vc
    /\ digit_value unicode_decimal d = Some vd
    /\ y = 10 * (10 * (10 * (10 * 0 + Z.of_N va) + Z.of_N vb) + Z.of_N vc)
           + Z.of_N vd.
Proof.
  unfold year_text. split.
  - destruct Y as [| a [| b [| c [| d [| e Y]]]]]; try discriminate.
    cbn [digits_value].
    destruct (digit_value unicode_decimal a) as [va |] eqn:Ea; [| discriminate].
    destruct (digit_value unicode_decimal b) as [vb |] eqn:Eb; [| discriminate].
    destruct (digit_value unicode_decimal c) as [vc |] eqn:Ec; [| discriminate].
    destruct (digit_value unicode_decimal d) as [vd |] eqn:Ed; [| discriminate].
    intros [= <-]. exists a, b, c, d, va, vb, vc, vd. repeat split; assumption.
  - intros (a & b & c & d & va & vb & vc & vd & -> & Ea & Eb & Ec & Ed & ->).
    cbn [digits_value]. now rewrite Ea, Eb, Ec, Ed.
Qed.

Lemma in_exec_Y s m g t :
  In (m, g, t) (exec' directive_Y s) ->
  g = [("Y"%string, m)] /\ exists y, year_text unicode_decimal m = Some y.
Proof.
  rewrite exec_Y. destruct s as [| a [| b [| c [| d s]]]]; try contradiction.
  destruct (dec a && dec b && dec c && dec d) eqn:E; [| contradiction].
  b2p. intros [[= <- <- <-] | []]. split; [reflexivity |].
  repeat match goal with
         | H : dec _ = true |- _ => apply decimal_value in H; destruct H
         end.
  eexists. apply year_text_cases. do 8 eexists. repeat split; eassumption.
Qed.


Lemma in_exec_m s m g t :
  In (m, g, t) (exec' directive_m s) ->
  g = [("m"%string, m)] /\ exists v, month_text m = Some v.
Proof.
  intros H. destruct s as [| a [| b s]]; cbn in H; [contradiction | |];
    unfold in_range in H; cbn in H; repeat (split_if; cbn in H); b2p;
    in_cases H; subst; try lia;
    (split; [reflexivity |]); eexists; apply month_text_cases;
    first [ left; eexists; repeat split; lia
          | right; left; eexists; repeat split; lia
          | right; right; eexists; repeat split; lia ].
Qed.

Lemma in_exec_d s m g t :
  In (m, g, t) (exec' directive_d s) ->
  g = [("d"%string, m)] /\ exists v, day_text unicode_decimal m = Some v.
Proof.
  intros H. destruct s as [| a [| b s]]; cbn in H; [contradiction | |];
    unfold in_range in H; cbn in H; repeat (split_if; cbn in H); b2p;
    in_cases H; subst; try lia;
    (split; [reflexivity |]);
    repeat match goal with
           | H : dec _ = true |- _ => apply decimal_value in H; destruct H
           end;
    eexists; apply day_text_cases;
    first [ left; eexists; repeat split; lia
          | right; left; eexists; repeat split; lia
          | right; right; left; eexists; repeat split; lia
          | right; right; right; left; do 3 eexists;
            repeat split; [lia | lia | eassumption]
          | right; right; right; right; eexists; repeat split; lia ].
Qed.

Lemma head_exec_m M v t :
  month_text M = Some v ->
  hd_error (exec' directive_m (M ++ 45%N :: t))
  = Some (M, [("m"%string, M)], 45%N :: t).
Proof.
  intros H. apply month_text_cases in H.
  destruct H as [[a [-> [H _]]] | [[b [-> [H _]]] | [b [-> [H _]]]]];
    cbn; unfold in_range; cbn; repeat (split_if; cbn); b2p;
    solve [reflexivity | lia].
Qed.

Lemma head_exec_d D v :
  day_text unicode_decimal D = Some v ->
  hd_error (exec' directive_d D) = Some (D, [("d"%string, D)], []).
Proof.
  intros H. apply day_text_cases in H.
  destruct H as [[a [-> [H _]]] | [[b [-> [H _]]] | [[b [-> [H _]]]
           | [[a [b [vb [-> [H [Hb _]]]]]] | [b [-> [H _]]]]]]];
    cbn; unfold in_range; cbn; unfold is_decimal; try rewrite Hb;
    repeat (split_if; cbn); b2p; solve [reflexivity | lia | discriminate].
Qed.

Lemma head_exec_Y Y y t :
  year_text unicode_decimal Y = Some y ->
  hd_error (exec' directive_Y (Y ++ t)) = Some (Y, [("Y"%string, Y)], t).
Proof.
  intros H. apply year_text_cases in H.
  destruct H as (a & b & c & d & va & vb & vc & vd & -> & Ea & Eb & Ec & Ed & _).
  rewrite exec_Y. cbn. unfold is_decimal. now rewrite Ea, Eb, Ec, Ed.
Qed.

Lemma head_exec_hyphen t :
  hd_error (exec' (Chr "-") (45%N :: t)) = Some ([45%N], [], t).
Proof.
  reflexivity.
Qed.

Lemma head_exec_cat r1 r2 s m1 g1 t1 m2 g2 t2 :
  hd_error (exec' r1 s) = Some (m1, g1, t1) ->
  hd_error (exec' r2 t1) = Some (m2, g2, t2) ->
  hd_error (exec' (Cat r1 r2) s) = Some (m1 ++ m2, g1 ++ g2, t2).
Proof.
  intros H1 H2. cbn [exec].
  destruct (exec' r1 s) as [| w1 l1]; [discriminate |].
  injection H1 as ->. cbn [flat_map].
  destruct (exec' r2 t1) as [| w2 l2]; [discriminate |].
  injection H2 as ->. reflexivity.
Qed.

Lemma in_exec_cat r1 r2 s m g t :
  In (m, g, t) (exec' (Cat r1 r2) s) ->
  exists m1 g1 t1 m2 g2,
    In (m1, g1, t1) (exec' r1 s) /\ In (m2, g2, t) (exec' r2 t1)
    /\ m = m1 ++ m2 /\ g = g1 ++ g2.
Proof.
  cbn [exec]. intros H. apply in_flat_map in H.
  destruct H as [[[m1 g1] t1] [H1 H2]].
  apply in_map_iff in H2. destruct H2 as [[[m2 g2] t2] [E H2]].
  injection E as <- <- <-. exists m1, g1, t1, m2, g2. auto.
Qed.

Lemma in_exec_chr c s m g t :
  In (m, g, t) (exec' (Chr c) s) -> m = [N_of_ascii c] /\ g = [].
Proof.
  destruct s as [| x s]; cbn; [contradiction |].
  destruct (N.eqb_spec (N_of_ascii c) x) as [<- | _]; [| contradiction].
  intros [[= <- <- <-] | []]. auto.
Qed.

(** [int] reads back the number a field stands for. *)
Lemma int_year Y y :
  year_text unicode_decimal Y = Some y -> int unicode_decimal Y = Some y.
Proof.
  intros H. pose proof H as H'. apply year_text_cases in H'.
  destruct H' as (a & b & c & d & va & vb & vc & vd & -> & Ea & _).
  unfold int. cbn [lstrip].
  destruct (N.eqb_spec a 32) as [-> | _]; [| exact H].
  rewrite digit_value_low in Ea by lia. discriminate.
Qed.

Lemma int_month M v :
  month_text M = Some v -> int unicode_decimal M = Some v.
Proof.
  intros H. apply month_text_cases in H.
  destruct H as [[a [-> [H ->]]] | [[b [-> [H ->]]] | [b [-> [H ->]]]]];
    unfold int; cbn [lstrip];
    repeat (split_if; b2p; try lia); cbn [digits_value];
    rewrite ?digit_value_ascii by lia; f_equal; lia.
Qed.

Lemma int_day D v :
  day_text unicode_decimal D = Some v -> int unicode_decimal D = Some v.
Proof.
  intros H. apply day_text_cases in H.
  destruct H as [[a [-> [H ->]]] | [[b [-> [H ->]]] | [[b [-> [H ->]]]
           | [[a [b [vb [-> [H [Hb ->]]]]]] | [b [-> [H ->]]]]]]];
    unfold int; cbn [lstrip];
    repeat (split_if; b2p; try lia); cbn [digits_value];
    rewrite ?digit_value_ascii by lia; rewrite ?Hb; f_equal; lia.
Qed.

(** A string made of three good fields is accepted, if the date exists. *)
Lemma strptime_fields Y M D y m d :
  year_text unicode_decimal Y = Some y ->
  month_text M = Some m ->
  day_text unicode_decimal D = Some d ->
  _strptime unicode_decimal (Y ++ 45%N :: M ++ 45%N :: D)
  = match new_date y m d with
    | Some dt => Return dt
    | None => Raise ValueError
    end.
Proof.
  intros HY HM HD. unfold _strptime, re_match, format_regex.
  rewrite (head_exec_cat _ _ _ _ _ _ _ _ _ (head_exec_Y Y y _ HY)
             (head_exec_cat _ _ _ _ _ _ _ _ _ (head_exec_hyphen _)
                (head_exec_cat _ _ _ _ _ _ _ _ _ (head_exec_m M m _ HM)
                   (head_exec_cat _ _ _ _ _ _ _ _ _ (head_exec_hyphen _)
                      (head_exec_d D d HD))))).
  cbn [List.app]. rewrite Nat.eqb_refl. cbn [negb].
  unfold int_group. cbn -[int new_date].
  now rewrite (int_year _ _ HY), (int_month _ _ HM), (int_day _ _ HD).
Qed.

Lemma hd_error_in {A} (l : list A) x : hd_error l = Some x -> In x l.
Proof.
  destruct l; [discriminate |]. intros [= ->]. now left.
Qed.

(** Conversely, what is accepted is made of three good fields. *)
Lemma strptime_sound s dt :
  _strptime unicode_decimal s = Return dt ->
  exists Y M D y m d,
    s = Y ++ 45%N :: M ++ 45%N :: D
    /\ year_text unicode_decimal Y = Some y
    /\ month_text M = Some m
    /\ day_text unicode_decimal D = Some d
    /\ new_date y m d = Some dt.
Proof.
  unfold _strptime, re_match.
  destruct (hd_error _) as [[[found gd] rest] |] eqn:E; [| discriminate].
  apply hd_error_in in E. pose proof (exec_sound _ _ _ _ _ E) as Es.
  unfold format_regex in E.
  apply in_exec_cat in E. destruct E as (Y & gY & t1 & m1 & g1 & EY & E & -> & ->).
  apply in_exec_cat in E. destruct E as (h1 & gh1 & t2 & m2 & g2 & Eh1 & E & -> & ->).
  apply in_exec_cat in E. destruct E as (M & gM & t3 & m3 & g3 & EM & E & -> & ->).
  apply in_exec_cat in E. destruct E as (h2 & gh2 & t4 & D & gD & Eh2 & ED & -> & ->).
  apply in_exec_chr in Eh1, Eh2. destruct Eh1 as [-> ->], Eh2 as [-> ->].
  apply in_exec_Y in EY. destruct EY as [-> [y HY]].
  apply in_exec_m in EM. destruct EM as [-> [m HM]].
  apply in_exec_d in ED. destruct ED as [-> [d HD]].
  cbn [N_of_ascii List.app] in *.
  destruct (Nat.eqb (List.length s) _) eqn:El; cbn [negb]; [| discriminate].
  apply Nat.eqb_eq in El. unfold int_group. cbn -[int new_date].
  rewrite (int_year _ _ HY), (int_month _ _ HM), (int_day _ _ HD).
  destruct (new_date y m d) as [dt' |] eqn:En; [| discriminate].
  intros [= <-]. exists Y, M, D, y, m, d. repeat split; try assumption.
  rewrite Es in El. rewrite length_app in El.
  assert (rest = []) as -> by (destruct rest; [reflexivity | cbn in El; lia]).
  now rewrite app_nil_r in Es.
Qed.

(** Fields hold no hyphen, so splitting at the hyphens finds them. *)
Lemma digit_not_hyphen c v :
  digit_value unicode_decimal c = Some v -> c <> 45%N.
Proof.
  intros H ->. rewrite digit_value_low in H by lia. discriminate.
Qed.

Lemma year_hyphen_free Y y :
  year_text unicode_decimal Y = Some y -> hyphen_free Y.
Proof.
  intros H. apply year_text_cases in H.
  destruct H as (a & b & c & d & va & vb & vc & vd & -> & Ea & Eb & Ec & Ed & _).
  repeat constructor; eapply digit_not_hyphen; eassumption.
Qed.

Lemma month_hyphen_free M m : month_text M = Some m -> hyphen_free M.
Proof.
  intros H. apply month_text_cases in H.
  destruct H as [[a [-> [H _]]] | [[b [-> [H _]]] | [b [-> [H _]]]]];
    repeat constructor; lia.
Qed.

Lemma day_hyphen_free D d :
  day_text unicode_decimal D = Some d -> hyphen_free D.
Proof.
  intros H. apply day_text_cases in H.
  destruct H as [[a [-> [H _]]] | [[b [-> [H _]]] | [[b [-> [H _]]]
           | [[a [b [vb [-> [H [Hb _]]]]]] | [b [-> [H _]]]]]]];
    repeat constructor; try lia.
  eapply digit_not_hyphen; eassumption.
Qed.

Lemma split_hyphen_cons s : exists f fs, split_hyphen s = f :: fs.
Proof.
  destruct s as [| c s]; cbn; [eauto |].
  destruct (c =? 45)%N; [eauto |].
  destruct (split_hyphen s); eauto.
Qed.

Lemma split_hyphen_field F rest :
  hyphen_free F -> split_hyphen (F ++ 45%N :: rest) = F :: split_hyphen rest.
Proof.
  induction 1 as [| c F Hc _ IH]; cbn.
  - reflexivity.
  - apply N.eqb_neq in Hc. now rewrite Hc, IH.
Qed.

Lemma split_hyphen_last F : hyphen_free F -> split_hyphen F = [F].
Proof.
  induction 1 as [| c F Hc _ IH]; cbn.
  - reflexivity.
  - apply N.eqb_neq in Hc. now rewrite Hc, IH.
Qed.

Lemma split_hyphen_inv s : forall f fs,
  split_hyphen s = f :: fs ->
  (fs = [] /\ s = f)
  \/ (exists rest, s = f ++ 45%N :: rest /\ split_hyphen rest = fs).
Proof.
  induction s as [| c s IH]; cbn; intros f fs H.
  - injection H as <- <-. now left.
  - destruct (N.eqb_spec c 45) as [-> | _].
    + injection H as <- <-. right. now exists s.
    + destruct (split_hyphen_cons s) as (f' & fs' & E). rewrite E in H.
      injection H as <- <-.
      destruct (IH _ _ E) as [[-> ->] | (rest & -> & <-)].
      * now left.
      * right. now exists rest.
Qed.

Lemma split_hyphen_three s Y M D :
  split_hyphen s = [Y; M; D] -> s = Y ++ 45%N :: M ++ 45%N :: D.
Proof.
  intros H. apply split_hyphen_inv in H.
  destruct H as [[[=] _] | (r1 & -> & H)].
  apply split_hyphen_inv in H.
  destruct H as [[[=] _] | (r2 & -> & H)].
  apply split_hyphen_inv in H.
  destruct H as [[_ ->] | (r3 & _ & H)]; [reflexivity |].
  destruct (split_hyphen_cons r3) as (f & fs & E). congruence.
Qed.

(** [strptime] accepts exactly what [lenient_ymd] reads, with its date. *)
Lemma strptime_lenient s :
  _strptime unicode_decimal s
  = match lenient_ymd unicode_decimal s with
    | Some d => Return d
    | None => Raise ValueError
    end.
Proof.
  destruct (lenient_ymd unicode_decimal s) as [dt |] eqn:L.
  - unfold lenient_ymd in L.
    destruct (split_hyphen s) as [| Y [| M [| D [| x l]]]] eqn:E;
      try discriminate.
    apply split_hyphen_three in E. subst s.
    destruct (year_text unicode_decimal Y) as [y |] eqn:HY; [| discriminate].
    destruct (month_text M) as [m |] eqn:HM; [| discriminate].
    destruct (day_text unicode_decimal D) as [d |] eqn:HD; [| discriminate].
    rewrite (strptime_fields _ _ _ _ _ _ HY HM HD). now rewrite L.
  - destruct (strptime_outcome s) as [[dt H] | H];
      [| exact H].
    apply strptime_sound in H.
    destruct H as (Y & M & D & y & m & d & -> & HY & HM & HD & Hn).
    unfold lenient_ymd in L.
    rewrite (split_hyphen_field _ _ (year_hyphen_free _ _ HY)) in L.
    rewrite (split_hyphen_field _ _ (month_hyphen_free _ _ HM)) in L.
    rewrite (split_hyphen_last _ (day_hyphen_free _ _ HD)) in L.
    rewrite HY, HM, HD, Hn in L. discriminate.
Qed.

Lemma days_in_month_le y m : 1 <= m <= 12 -> _days_in_month y m <= 31.
Proof.
  intros H. unfold _days_in_month.
  destruct ((m =? 2) && _is_leap y); [lia |].
  assert (m = 1 \/ m = 2 \/ m = 3 \/ m = 4 \/ m = 5 \/ m = 6 \/ m = 7
          \/ m = 8 \/ m = 9 \/ m = 10 \/ m = 11 \/ m = 12) as Hm by lia.
  repeat (destruct Hm as [-> | Hm]; [vm_compute; discriminate |]).
  subst m. vm_compute. discriminate.
Qed.

Lemma new_date_inv y m d dt :
  new_date y m d = Some dt ->
  dt = mkdate y m d /\ 1 <= y <= 9999 /\ 1 <= m <= 12
  /\ 1 <= d <= _days_in_month y m.
Proof.
  unfold new_date, MINYEAR, MAXYEAR.
  repeat (split_if; [discriminate |]). intros [= <-]. b2p.
  split; [reflexivity | lia].
Qed.

Lemma zfill_2 a b :
  (48 <= a <= 57)%N -> (48 <= b <= 57)%N -> zfill 2 (number 0 [a; b]) = [a; b].
Proof.
  intros Ha Hb. cbn [zfill number List.app].
  repeat f_equal; Z.div_mod_to_equations; lia.
Qed.

Lemma zfill_4 a b c d :
  (48 <= a <= 57)%N -> (48 <= b <= 57)%N ->
  (48 <= c <= 57)%N -> (48 <= d <= 57)%N ->
  zfill 4 (number 0 [a; b; c; d]) = [a; b; c; d].
Proof.
  intros Ha Hb Hc Hd. cbn [zfill number List.app].
  repeat f_equal; Z.div_mod_to_equations; lia.
Qed.

Lemma year_digits_4 y : 1000 <= y -> year_digits y = zfill 4 y.
Proof.
  intros H. unfold year_digits.
  destruct (Z.ltb_spec y 10); [lia |].
  destruct (Z.ltb_spec y 100); [lia |].
  destruct (Z.ltb_spec y 1000); [lia | reflexivity].
Qed.

(** A string that is strictly [YYYY-MM-DD] is accepted, with the date it
    names, and from the year 1000 on [strftime] writes that date back as
    the same string. *)
Lemma strict_lenient s d :
  strict_ymd s = Some d ->
  lenient_ymd unicode_decimal s = Some d
  /\ (1000 <= year d -> strftime_ymd d = s).
Proof.
  unfold strict_ymd.
  destruct s as [| y1 [| y2 [| y3 [| y4 [| h1 [| m1 [| m2 [| h2 [| d1 [| d2
                 [| x s]]]]]]]]]]]; try discriminate.
  destruct (forallb _ _ && _ && _) eqn:E; [| discriminate].
  cbn [forallb] in E. b2p. subst h1 h2.
  repeat match goal with
         | H : ascii_digit _ = true |- _ => apply ascii_digit_iff in H
         end.
  intros Hn. pose proof (new_date_inv _ _ _ _ Hn) as (-> & Hy & Hm & Hd).
  pose proof (days_in_month_le (number 0 [y1; y2; y3; y4]) _ Hm) as Hd'.
  split.
  - unfold lenient_ymd.
    change [y1; y2; y3; y4; 45%N; m1; m2; 45%N; d1; d2]
      with ([y1; y2; y3; y4] ++ 45%N :: [m1; m2] ++ 45%N :: [d1; d2]).
    assert (year_text unicode_decimal [y1; y2; y3; y4]
            = Some (number 0 [y1; y2; y3; y4])) as HY.
    { cbn [year_text digits_value number].
      rewrite !digit_value_ascii by lia. f_equal. lia. }
    assert (month_text [m1; m2] = Some (number 0 [m1; m2])) as HM.
    { unfold month_text.
      replace (ascii_digit m1) with true by (symmetry; now apply ascii_digit_iff).
      replace (ascii_digit m2) with true by (symmetry; now apply ascii_digit_iff).
      apply between_iff. auto. }
    assert (day_text unicode_decimal [d1; d2] = Some (number 0 [d1; d2])) as HD.
    { unfold day_text.
      replace (d1 =? 32)%N with false by (symmetry; apply N.eqb_neq; lia).
      destruct ((d1 =? 49)%N || (d1 =? 50)%N).
      - cbn [digits_value number].
        rewrite !digit_value_ascii by lia. f_equal. lia.
      - replace (ascii_digit d1) with true by (symmetry; now apply ascii_digit_iff).
        replace (ascii_digit d2) with true by (symmetry; now apply ascii_digit_iff).
        apply between_iff. split; [reflexivity | lia]. }
    rewrite (split_hyphen_field _ _ (year_hyphen_free _ _ HY)).
    rewrite (split_hyphen_field _ _ (month_hyphen_free _ _ HM)).
    rewrite (split_hyphen_last _ (day_hyphen_free _ _ HD)).
    now rewrite HY, HM, HD.
  - cbn [year]. intros Hk. unfold strftime_ymd. cbn [year month day].
    rewrite (year_digits_4 _ Hk).
    rewrite zfill_4, !zfill_2 by assumption. reflexivity.
Qed.
End Parsing.

(** The strings of the specification, whatever the digits of the
    interpreter: the impossible and the malformed ones are refused, the
    unpadded one is read. *)
Example impossible_date_refused unicode_decimal :
  lenient_ymd unicode_decimal (cps "2024-02-30") = None
  /\ lenient_ymd unicode_decimal (cps "2024-13-01") = None
  /\ lenient_ymd unicode_decimal (cps "0000-01-01") = None.
Proof.
  repeat split; reflexivity.
Qed.

Example malformed_date_refused unicode_decimal :
  lenient_ymd unicode_decimal (cps "not-a-date") = None
  /\ lenient_ymd unicode_decimal (cps "2024-06-12T00:00") = None
  /\ lenient_ymd unicode_decimal (cps "20240612") = None.
Proof.
  repeat split; reflexivity.
Qed.

Example unpadded_date_read unicode_decimal :
  lenient_ymd unicode_decimal (cps "2024-6-1") = Some (mkdate 2024 6 1)
  /\ lenient_ymd unicode_decimal (cps "2024-06- 1") = Some (mkdate 2024 6 1)
  /\ strict_ymd (cps "2024-6-1") = None.
Proof.
  repeat split; reflexivity.
Qed.

(** ** The handler, case by case *)

Section Handler.

Variable unicode_decimal : N -> option N.

#[local] Abbreviation parse := (parse_date_string unicode_decimal).
#[local] Abbreviation handler := (get_connections_game unicode_decimal).

Lemma select_by_date_answer solutions d :
  answer solutions select_by_date [SqlDate d]
  = Some (filter (fun r => date_eqb (Solutions.game_date r) d) solutions).
Proof.
  reflexivity.
Qed.

Lemma first_of_filter {A} (p : A -> bool) (l : list A) :
  hd_error (filter p l) = find p l.
Proof.
  induction l as [| a l IH]; simpl.
  - reflexivity.
  - destruct (p a); simpl; [reflexivity | exact IH].
Qed.

Lemma parse_outcome s :
  (exists d, _strptime unicode_decimal s = Return d /\ parse s = Return d)
  \/ (_strptime unicode_decimal s = Raise ValueError
      /\ parse s
         = Raise (HTTPException 400 (cps "Invalid date format. Expected YYYY-MM-DD"))).
Proof.
  unfold parse_date_string.
  destruct (strptime_outcome unicode_decimal s) as [[d H] | H]; rewrite H.
  - left; eauto.
  - right; auto.
Qed.

(** A connection just made is open. *)
Lemma existsb_without conn l : existsb (Nat.eqb conn) (without conn l) = false.
Proof.
  induction l as [| c l IH]; cbn [without existsb].
  - reflexivity.
  - destruct (Nat.eqb_spec c conn) as [-> | ne]; [exact IH |].
    cbn [existsb]. rewrite IH.
    destruct (Nat.eqb_spec conn c) as [-> | _]; [now destruct ne | reflexivity].
Qed.

(** [get_db_connection] around any body: what comes out and in which
    world, from what the body gave and the world it left. *)
Lemma get_db_connection_closes {A} db (with_body : nat -> M A) w :
  match db with
  | ConnectFails message =>
      get_db_connection db with_body w
      = (Raise (HTTPException 500 (cps "Database error: " ++ message)),
         log (Connect None) w)
  | _ =>
      let conn := next_id w in
      let (o, w1) :=
        with_body conn (log (Connect (Some conn)) (set_open conn (snd (fresh w)))) in
      match o with
      | Raise (Psycopg2Error message) =>
          get_db_connection db with_body w
          = (if is_closed conn w1
             then Raise (Psycopg2Error (cps "connection already closed"))
             else Raise (HTTPException 500 (cps "Database error: " ++ message)),
             set_closed conn (log (Close conn) (log (Rollback conn) w1)))
      | _ =>
          get_db_connection db with_body w
          = (o, set_closed conn (log (Close conn) w1))
      end
  end.
Proof.
  unfold get_db_connection, connect.
  destruct db as [message | message | message | solutions];
    [reflexivity | | |];
    cbn [fresh]; cbv zeta;
    destruct (with_body _ _) as [[a | [| | sc dt | message']] w1];
    try reflexivity;
    unfold finally, except_psycopg2, bind, lift, rollback, raise, close;
    change (is_closed (next_id w) (log (Rollback (next_id w)) w1))
      with (is_closed (next_id w) w1);
    destruct (is_closed (next_id w) w1); reflexivity.
Qed.

Lemma handler_rejects db s e w :
  parse s = Raise e -> handler db s w = (Raise e, w).
Proof.
  intros H. unfold get_connections_game, bind, lift. now rewrite H.
Qed.

(** The ways the handler can go for a date the parser accepts. *)
Lemma handler_accepts db s d w :
  parse s = Return d ->
  exists w',
    match db with
    | ConnectFails message =>
        handler db s w
        = (Raise (HTTPException 500 (cps "Database error: " ++ message)), w')
        /\ trace w' = trace w ++ [Connect None]
    | QueryFails message =>
        handler db s w
        = (Raise (HTTPException 500 (cps "Database error: " ++ message)), w')
        /\ trace w'
           = trace w ++ calls_to_statement w d
                     ++ [Rollback (next_id w); Close (next_id w)]
    | ConnectionLost message =>
        handler db s w
        = (Raise (Psycopg2Error (cps "connection already closed")), w')
        /\ trace w'
           = trace w ++ calls_to_statement w d
                     ++ [Rollback (next_id w); Close (next_id w)]
    | Serving solutions =>
        handler db s w
        = (match record_for solutions d with
           | Some r =>
               ConnectionsGame_init (Solutions.game_id r)
                 (strftime_ymd (Solutions.game_date r))
                 (Solutions.editor r) (Solutions.categories r)
           | None =>
               Raise (HTTPException 404
                        (cps "No game data found for date " ++ s))
           end, w')
        /\ trace w'
           = trace w ++ calls_to_statement w d
                     ++ [Fetchone (S (next_id w)); Close (next_id w)]
    end.
Proof.
  intros H. unfold get_connections_game, bind, lift. rewrite H.
  destruct w as [n rs cl t].
  destruct db as [message | message | message | solutions].
  - eexists. split; reflexivity.
  - unfold get_db_connection, finally, except_psycopg2, bind, lift, rollback.
    cbn -[select_by_date existsb without].
    unfold is_closed. cbn -[select_by_date existsb without].
    rewrite existsb_without.
    eexists. split; [reflexivity |].
    cbn -[select_by_date]. now rewrite <- !app_assoc.
  - unfold get_db_connection, finally, except_psycopg2, bind, lift, rollback.
    cbn -[select_by_date existsb without].
    unfold is_closed. cbn -[select_by_date without].
    rewrite Nat.eqb_refl. cbn -[select_by_date without].
    eexists. split; [reflexivity |].
    cbn -[select_by_date]. now rewrite <- !app_assoc.
  - unfold get_db_connection, finally, except_psycopg2, bind, lift, execute.
    cbn -[answer select_by_date without].
    rewrite select_by_date_answer.
    unfold fetchone, record_for. cbn -[select_by_date without].
    rewrite Nat.eqb_refl. rewrite <- first_of_filter.
    destruct (filter _ solutions) as [| r rows]; cbn -[select_by_date without].
    + eexists. split; [reflexivity |].
      cbn -[select_by_date]. now rewrite <- !app_assoc.
    + unfold ConnectionsGame_init.
      destruct (Solutions.game_id r), (Solutions.editor r);
        eexists; (split; [reflexivity |]);
        cbn -[select_by_date]; now rewrite <- !app_assoc.
Qed.

Lemma events_of_grown w w' evs :
  trace w' = trace w ++ evs -> events_of w w' = evs.
Proof.
  intros H. unfold events_of. rewrite H.
  rewrite skipn_app, skipn_all, Nat.sub_diag. reflexivity.
Qed.

Lemma events_of_same w : events_of w w = [].
Proof.
  unfold events_of. apply skipn_all.
Qed.

(** The ways a request for a date the parser accepts can go. *)
Lemma app_accepts db s d w :
  parse s = Return d ->
  exists w',
    trace w' = trace w ++ events_of w w' /\
    match db with
    | ConnectFails message =>
        app unicode_decimal db (GET_connections s) w
        = (mkresponse 500 (detail_body (cps "Database error: " ++ message)), w')
        /\ events_of w w' = [Connect None]
    | QueryFails message =>
        app unicode_decimal db (GET_connections s) w
        = (mkresponse 500 (detail_body (cps "Database error: " ++ message)), w')
        /\ events_of w w'
           = calls_to_statement w d ++ [Rollback (next_id w); Close (next_id w)]
    | ConnectionLost message =>
        app unicode_decimal db (GET_connections s) w
        = (mkresponse 500 (Text (cps "Internal Server Error")), w')
        /\ events_of w w'
           = calls_to_statement w d ++ [Rollback (next_id w); Close (next_id w)]
    | Serving solutions =>
        app unicode_decimal db (GET_connections s) w
        = (match record_for solutions d with
           | Some r => row_response r
           | None =>
               mkresponse 404
                 (detail_body (cps "No game data found for date " ++ s))
           end, w')
        /\ events_of w w'
           = calls_to_statement w d
             ++ [Fetchone (S (next_id w)); Close (next_id w)]
    end.
Proof.
  intros H. destruct (handler_accepts db s d w H) as (w' & Hw).
  exists w'. unfold app.
  destruct db as [message | message | message | solutions];
    destruct Hw as [-> T]; rewrite (events_of_grown _ _ _ T);
    (split; [exact T |]); (split; [| reflexivity]);
    try reflexivity.
  destruct (record_for solutions d); reflexivity.
Qed.

Lemma app_rejects db s w :
  _strptime unicode_decimal s = Raise ValueError ->
  app unicode_decimal db (GET_connections s) w
  = (mkresponse 400
       (detail_body (cps "Invalid date format. Expected YYYY-MM-DD")), w).
Proof.
  intros H. unfold app.
  rewrite (handler_rejects db s
             (HTTPException 400 (cps "Invalid date format. Expected YYYY-MM-DD"))).
  - reflexivity.
  - unfold parse_date_string. now rewrite H.
Qed.

End Handler.

(** ** The service, property by property *)

Lemma date_eqb_eq a b : date_eqb a b = true -> a = b.
Proof.
  destruct a, b. unfold date_eqb. cbn [year month day]. intros H.
  b2p. now subst.
Qed.

Lemma record_for_date solutions d row :
  record_for solutions d = Some row -> Solutions.game_date row = d.
Proof.
  intros H. apply find_some in H. destruct H as [_ H]. now apply date_eqb_eq.
Qed.

Lemma strict_accepted unicode_decimal s d :
  strict_ymd s = Some d ->
  parse_date_string unicode_decimal s = Return d
  /\ (1000 <= year d -> strftime_ymd d = s).
Proof.
  intros H. apply (strict_lenient unicode_decimal) in H. destruct H as [L R].
  split; [| exact R].
  unfold parse_date_string. now rewrite strptime_lenient, L.
Qed.

Lemma lenient_rejected unicode_decimal s :
  lenient_ymd unicode_decimal s = None ->
  _strptime unicode_decimal s = Raise ValueError.
Proof.
  intros L. now rewrite strptime_lenient, L.
Qed.

Lemma row_response_status r :
  status (row_response r)
  = match Solutions.game_id r, Solutions.editor r with
    | Some _, Some _ => 200
    | _, _ => 500
    end.
Proof.
  unfold row_response, ConnectionsGame_init.
  now destruct (Solutions.game_id r), (Solutions.editor r).
Qed.

(** A string the parser reads is never answered 400: the store is asked. *)
Lemma accepted_date_is_looked_up unicode_decimal db s d w :
  lenient_ymd unicode_decimal s = Some d ->
  let rw := app unicode_decimal db (GET_connections s) w in
  status (fst rw) <> 400 /\ attempts (events_of w (snd rw)) = 1%nat.
Proof.
  intros L.
  assert (parse_date_string unicode_decimal s = Return d) as P
    by (unfold parse_date_string; now rewrite strptime_lenient, L).
  destruct (app_accepts unicode_decimal db s d w P) as (w' & _ & H).
  destruct db as [m | m | m | solutions]; destruct H as [-> E];
    cbn [fst snd]; rewrite E; (split; [| reflexivity]).
  - discriminate.
  - discriminate.
  - discriminate.
  - destruct (record_for solutions d) as [r |]; [| discriminate].
    rewrite row_response_status.
    destruct (Solutions.game_id r), (Solutions.editor r); discriminate.
Qed.

(** C1, amended.  For every request string [s] that is strictly a
    [YYYY-MM-DD] date of the years 0001 to 9999, the status is 200, 404 or
    500 and no other: 200 when the store answers with a record for that
    date whose [game_id] and [editor] are not NULL, and then [print_date]
    equals [s] if the year is 1000 or later; 404 when the store answers
    with no record for that date; 500 when the connection or the statement
    fails, or when the record has a NULL [game_id] or [editor]. *)
Theorem valid_date_statuses unicode_decimal db s d w :
  strict_ymd s = Some d ->
  let r := fst (app unicode_decimal db (GET_connections s) w) in
  match db with
  | Serving solutions =>
      match record_for solutions d with
      | Some row =>
          match Solutions.game_id row, Solutions.editor row with
          | Some _, Some _ =>
              exists game, r = mkresponse 200 (Model game)
                           /\ (1000 <= year d -> print_date game = s)
          | _, _ => status r = 500
          end
      | None => status r = 404
      end
  | ConnectFails _ | QueryFails _ | ConnectionLost _ => status r = 500
  end.
Proof.
  intros H. apply (strict_accepted unicode_decimal) in H. destruct H as [P R].
  destruct (app_accepts unicode_decimal db s d w P) as (w' & _ & H).
  destruct db as [m | m | m | solutions]; destruct H as [-> _]; cbn [fst];
    try reflexivity.
  destruct (record_for solutions d) as [row |] eqn:E; [| reflexivity].
  pose proof (record_for_date _ _ _ E) as Ed.
  unfold row_response, ConnectionsGame_init.
  destruct (Solutions.game_id row), (Solutions.editor row); try reflexivity.
  eexists. split; [reflexivity |]. cbn [print_date]. now rewrite Ed.
Qed.

Lemma valid_date_statuses_witness :
  exists game,
    fst (app ascii_only (Serving [june_12])
           (GET_connections (cps "2024-06-12")) fresh_world)
    = mkresponse 200 (Model game)
    /\ (1000 <= year (mkdate 2024 6 12) -> print_date game = cps "2024-06-12").
Proof.
  exact (valid_date_statuses ascii_only (Serving [june_12])
           (cps "2024-06-12") (mkdate 2024 6 12) fresh_world eq_refl).
Defined.

(** C1 as stated fails: with the store unreachable, a valid date is
    answered with 500, neither 200 nor 404. *)
Lemma valid_date_store_down :
  let s := cps "2024-06-12" in
  let r := fst (app ascii_only (ConnectFails (cps "connection refused"))
                  (GET_connections s) fresh_world) in
  valid_ymd s = true
  /\ status r = 500
  /\ ~ ((exists game, r = mkresponse 200 (Model game) /\ print_date game = s)
        \/ status r = 404).
Proof.
  cbv zeta. split; [reflexivity |]. split; [reflexivity |].
  intros [[game [H _]] | H]; discriminate H.
Qed.

(** C2: the handler at [2024-6-1].  The string is not two-digit month and
    day, and the specification has it answered 400 with no lookup; the
    handler reads it as the first of June, connects, sends the statement
    and answers 404. *)
Lemma one_digit_month_is_looked_up :
  let s := cps "2024-6-1" in
  let rw := app ascii_only (Serving [june_12]) (GET_connections s)
                fresh_world in
  strict_ymd s = None
  /\ status (fst rw) = 404
  /\ status (fst rw) <> 400
  /\ attempts (events_of fresh_world (snd rw)) = 1%nat
  /\ statements (events_of fresh_world (snd rw)) = 1%nat.
Proof.
  cbv zeta. repeat split; try reflexivity. discriminate.
Qed.

(** C3: the handler at a row of the year 999.  The specification has
    [print_date] written [YYYY-MM-DD]; the handler answers [999-02-03],
    nine characters that are not a date of that form, and that
    [parse_date_string] refuses when they are sent back. *)
Lemma old_year_print_date :
  let r := fst (app ascii_only (Serving [year_999])
                  (GET_connections (cps "0999-02-03")) fresh_world) in
  strict_ymd (cps "0999-02-03") = Some (Solutions.game_date year_999)
  /\ r = mkresponse 200
           (Model (mkgame 7 (cps "999-02-03") (cps "Anon") PyNone))
  /\ strict_ymd (cps "999-02-03") = None
  /\ parse_date_string ascii_only (cps "999-02-03")
     = Raise (HTTPException 400
                (cps "Invalid date format. Expected YYYY-MM-DD")).
Proof.
  cbv zeta. repeat split; reflexivity.
Qed.

(** C4.  For every valid date for which the store holds no record, the
    response is 404 with the detail naming the date. *)
Theorem missing_record_is_404 unicode_decimal solutions s d w :
  strict_ymd s = Some d ->
  record_for solutions d = None ->
  fst (app unicode_decimal (Serving solutions) (GET_connections s) w)
  = mkresponse 404 (detail_body (cps "No game data found for date " ++ s)).
Proof.
  intros H E. apply (strict_accepted unicode_decimal) in H. destruct H as [P _].
  destruct (app_accepts unicode_decimal (Serving solutions) s d w P)
    as (w' & _ & -> & _).
  now rewrite E.
Qed.

Lemma missing_record_is_404_witness :
  fst (app ascii_only (Serving [june_12]) (GET_connections (cps "2099-01-01"))
         fresh_world)
  = mkresponse 404
      (detail_body (cps "No game data found for date 2099-01-01")).
Proof.
  exact (missing_record_is_404 ascii_only [june_12] (cps "2099-01-01")
           (mkdate 2099 1 1) fresh_world eq_refl eq_refl).
Defined.

(** C5: the handler when the connection is lost under the statement.  The
    specification has a 500 whose detail is [Database error: ] and the
    diagnostic, after a rollback; the handler calls [rollback] on the
    broken connection, which raises, so the [HTTPException] is never
    raised and the answer is the plain 500 of the server, without the
    diagnostic.  The connection is still closed. *)
Lemma lost_connection_is_plain_500 :
  let message := cps "server closed the connection unexpectedly" in
  let rw := app ascii_only (ConnectionLost message)
                (GET_connections (cps "2024-06-12")) fresh_world in
  fst rw = mkresponse 500 (Text (cps "Internal Server Error"))
  /\ fst rw <> mkresponse 500 (detail_body (cps "Database error: " ++ message))
  /\ events_of fresh_world (snd rw)
     = [Connect (Some 0%nat); Cursor 0 1;
        Execute 1 select_by_date [SqlDate (mkdate 2024 6 12)];
        Rollback 0; Close 0].
Proof.
  cbv zeta. repeat split; try reflexivity. discriminate.
Qed.

(** C6.  Whatever the request and the state of the store, the calls made
    while serving it leave no connection open: a connection that was made
    is closed by the last call, on success, on 404 and on a store error
    alike. *)
Theorem connections_are_released unicode_decimal db req w :
  let w' := snd (app unicode_decimal db req w) in
  trace w' = trace w ++ events_of w w'
  /\ open_after [] (events_of w w') = []
  /\ forall conn, In (Connect (Some conn)) (events_of w w') ->
       exists before, events_of w w' = before ++ [Close conn].
Proof.
  destruct req as [s | |]; cbn zeta.
  - destruct (parse_outcome unicode_decimal s) as [[d [_ P]] | [R _]].
    + destruct (app_accepts unicode_decimal db s d w P) as (w' & T & H).
      destruct db as [m | m | m | solutions]; destruct H as [-> E];
        cbn [snd]; (split; [exact T |]); rewrite E; cbn.
      * split; [reflexivity |]. intros conn [[=] | []].
      * destruct (Nat.eq_dec (next_id w) (next_id w)) as [_ | ne];
          [| now destruct ne].
        split; [reflexivity |].
        intros conn [[= <-] | [[=] | [[=] | [[=] | [[=] | []]]]]].
        now exists [Connect (Some (next_id w));
                    Cursor (next_id w) (S (next_id w));
                    Execute (S (next_id w)) select_by_date [SqlDate d];
                    Rollback (next_id w)].
      * destruct (Nat.eq_dec (next_id w) (next_id w)) as [_ | ne];
          [| now destruct ne].
        split; [reflexivity |].
        intros conn [[= <-] | [[=] | [[=] | [[=] | [[=] | []]]]]].
        now exists [Connect (Some (next_id w));
                    Cursor (next_id w) (S (next_id w));
                    Execute (S (next_id w)) select_by_date [SqlDate d];
                    Rollback (next_id w)].
      * destruct (Nat.eq_dec (next_id w) (next_id w)) as [_ | ne];
          [| now destruct ne].
        split; [reflexivity |].
        intros conn [[= <-] | [[=] | [[=] | [[=] | [[=] | []]]]]].
        now exists [Connect (Some (next_id w));
                    Cursor (next_id w) (S (next_id w));
                    Execute (S (next_id w)) select_by_date [SqlDate d];
                    Fetchone (S (next_id w))].
    + rewrite (app_rejects unicode_decimal db s w R). cbn [snd].
      rewrite events_of_same, app_nil_r.
      repeat split. intros conn [].
  - cbn. rewrite events_of_same, app_nil_r. repeat split. intros conn [].
  - cbn. rewrite events_of_same, app_nil_r. repeat split. intros conn [].
Qed.

(** C7.  [GET /health] is answered 200 with [{"status": "healthy"}] in
    every state of the store, and leaves the world as it was: the driver
    is not called. *)
Theorem health_is_always_healthy unicode_decimal db w :
  app unicode_decimal db GET_health w
  = (mkresponse 200 (Json (PyDict [(cps "status", PyStr (cps "healthy"))])), w).
Proof.
  reflexivity.
Qed.

(** C8.  The response to a request for a date depends on the date and on
    the store only, not on the world the request starts from; so a second
    request, made in the world the first one left, gets the same
    response. *)
Theorem repeated_get_same_response unicode_decimal db s w :
  let (first, w1) := app unicode_decimal db (GET_connections s) w in
  let (second, _) := app unicode_decimal db (GET_connections s) w1 in
  first = second.
Proof.
  destruct (parse_outcome unicode_decimal s) as [[d [_ P]] | [R _]].
  - destruct (app_accepts unicode_decimal db s d w P) as (w1 & _ & H1).
    destruct (app_accepts unicode_decimal db s d w1 P) as (w2 & _ & H2).
    destruct db as [m | m | m | solutions]; destruct H1 as [-> _];
      destruct H2 as [-> _]; reflexivity.
  - now rewrite !(app_rejects unicode_decimal db s _ R).
Qed.

(** C9.  The only statement sent is the constant [select_by_date], which
    does not mention the request; the date read from the request travels
    as the one value bound to it. *)
Theorem sql_text_is_fixed unicode_decimal db s w :
  queries (events_of w (snd (app unicode_decimal db (GET_connections s) w)))
  = match parse_date_string unicode_decimal s, db with
    | Return d, (QueryFails _ | ConnectionLost _ | Serving _) =>
        [(select_by_date, [SqlDate d])]
    | _, _ => []
    end.
Proof.
  destruct (parse_outcome unicode_decimal s) as [[d [_ P]] | [R P]]; rewrite P.
  - destruct (app_accepts unicode_decimal db s d w P) as (w' & _ & H).
    destruct db as [m | m | m | solutions]; destruct H as [-> E];
      cbn [snd]; rewrite E; reflexivity.
  - rewrite (app_rejects unicode_decimal db s w R). cbn [snd].
    now rewrite events_of_same.
Qed.

(** C10.  For every string the parser reads as a date with no record in
    the store, the 404 detail ends with the string as it was sent, and not
    with the date written back as [YYYY-MM-DD] when the two differ. *)
Theorem not_found_detail_is_raw unicode_decimal solutions s d w :
  parse_date_string unicode_decimal s = Return d ->
  record_for solutions d = None ->
  let r := fst (app unicode_decimal (Serving solutions) (GET_connections s) w) in
  r = mkresponse 404 (detail_body (cps "No game data found for date " ++ s))
  /\ (strftime_ymd d <> s ->
      r <> mkresponse 404
             (detail_body (cps "No game data found for date " ++ strftime_ymd d))).
Proof.
  intros P E.
  destruct (app_accepts unicode_decimal (Serving solutions) s d w P)
    as (w' & _ & -> & _).
  rewrite E. cbn [fst]. split; [reflexivity |].
  intros ne H. apply ne. unfold detail_body in H.
  assert (cps "No game data found for date " ++ s
          = cps "No game data found for date " ++ strftime_ymd d) as H'
    by congruence.
  apply app_inv_head in H'. now symmetry.
Qed.

Lemma not_found_detail_is_raw_witness :
  strftime_ymd (mkdate 2024 6 1) <> cps "2024-6-1"
  /\ let r := fst (app ascii_only (Serving [june_12])
                     (GET_connections (cps "2024-6-1")) fresh_world) in
     r = mkresponse 404
           (detail_body (cps "No game data found for date 2024-6-1"))
     /\ r <> mkresponse 404
               (detail_body (cps "No game data found for date 2024-06-01")).
Proof.
  assert (strftime_ymd (mkdate 2024 6 1) <> cps "2024-6-1") as ne
    by discriminate.
  split; [exact ne |].
  destruct (not_found_detail_is_raw ascii_only [june_12] (cps "2024-6-1")
              (mkdate 2024 6 1) fresh_world eq_refl eq_refl) as [H1 H2].
  split; [exact H1 | exact (H2 ne)].
Defined.

(** ** More of [parse_date_string] *)

Lemma parse_lenient unicode_decimal s :
  parse_date_string unicode_decimal s
  = match lenient_ymd unicode_decimal s with
    | Some d => Return d
    | None =>
        Raise (HTTPException 400 (cps "Invalid date format. Expected YYYY-MM-DD"))
    end.
Proof.
  unfold parse_date_string. rewrite strptime_lenient.
  now destruct (lenient_ymd unicode_decimal s).
Qed.

Lemma parse_fields unicode_decimal s d :
  parse_date_string unicode_decimal s = Return d ->
  exists Y M D y m dd,
    s = Y ++ 45%N :: M ++ 45%N :: D
    /\ year_text unicode_decimal Y = Some y
    /\ month_text M = Some m
    /\ day_text unicode_decimal D = Some dd
    /\ new_date y m dd = Some d.
Proof.
  intros P. apply strptime_sound.
  destruct (parse_outcome unicode_decimal s) as [[d' [S P']] | [_ P']];
    congruence.
Qed.

Lemma parsed_date_exists unicode_decimal s d :
  parse_date_string unicode_decimal s = Return d ->
  new_date (year d) (month d) (day d) = Some d.
Proof.
  intros P. apply parse_fields in P.
  destruct P as (Y & M & D & y & m & dd & _ & _ & _ & _ & Hn).
  pose proof (new_date_inv _ _ _ _ Hn) as (-> & _). exact Hn.
Qed.

(** X2.  Of the strings the router hands to the handler, which are not
    empty and hold no slash, only those of eight to ten characters are
    read as dates: a shorter or a longer one is answered 400 without a
    call to the driver. *)
Theorem wrong_length_is_400 unicode_decimal db s w :
  path_segment s = true ->
  (List.length s < 8 \/ 10 < List.length s)%nat ->
  app unicode_decimal db (GET_connections s) w
  = (mkresponse 400
       (detail_body (cps "Invalid date format. Expected YYYY-MM-DD")), w).
Proof.
  intros _ L. apply app_rejects.
  destruct (strptime_outcome unicode_decimal s) as [[d H] | H]; [| exact H].
  exfalso. apply strptime_sound in H.
  destruct H as (Y & M & D & y & m & dd & -> & HY & HM & HD & _).
  apply year_text_cases in HY.
  destruct HY as (a & b & c & e & va & vb & vc & vd & -> & _).
  apply (month_text_cases unicode_decimal) in HM. apply day_text_cases in HD.
  destruct HM as [[? [-> _]] | [[? [-> _]] | [? [-> _]]]];
    destruct HD as [[? [-> _]] | [[? [-> _]] | [[? [-> _]]
                   | [[? [? [? [-> _]]]] | [? [-> _]]]]]];
    cbn in L; lia.
Qed.

Lemma wrong_length_is_400_witness :
  app ascii_only (Serving [june_12]) (GET_connections (cps "2024-06")) fresh_world
  = (mkresponse 400
       (detail_body (cps "Invalid date format. Expected YYYY-MM-DD")),
     fresh_world).
Proof.
  apply (wrong_length_is_400 ascii_only (Serving [june_12]) (cps "2024-06")
           fresh_world eq_refl).
  left. cbn. lia.
Defined.

(** X3.  A string read as a date is made of decimal digits, hyphens and
    blanks only; any other character, a quote or a semicolon say, makes
    the request a 400. *)
Theorem parsed_string_characters unicode_decimal s d :
  parse_date_string unicode_decimal s = Return d ->
  Forall (fun c => c = 45%N \/ c = 32%N \/ is_decimal unicode_decimal c = true) s.
Proof.
  intros P. apply parse_fields in P.
  destruct P as (Y & M & D & y & m & dd & -> & HY & HM & HD & _).
  assert (forall c, (48 <= c <= 57)%N ->
                    c = 45%N \/ c = 32%N \/ is_decimal unicode_decimal c = true)
    as Hdigit.
  { intros c Hc. right; right. apply decimal_value. eexists.
    now apply digit_value_ascii. }
  assert (forall c v, digit_value unicode_decimal c = Some v ->
                      c = 45%N \/ c = 32%N \/ is_decimal unicode_decimal c = true)
    as Hdec.
  { intros c v Hc. right; right. apply decimal_value. eauto. }
  apply year_text_cases in HY.
  destruct HY as (a & b & c & e & va & vb & vc & vd & -> & Ea & Eb & Ec & Ee & _).
  apply (month_text_cases unicode_decimal) in HM. apply day_text_cases in HD.
  destruct HM as [[? [-> [? _]]] | [[? [-> [? _]]] | [? [-> [? _]]]]];
    destruct HD as [[? [-> [? _]]] | [[? [-> [? _]]] | [[? [-> [? _]]]
                   | [[? [? [? [-> [? [? _]]]]]] | [? [-> [? _]]]]]]];
    cbn [List.app];
    repeat (apply Forall_cons || apply Forall_nil);
    solve [ eapply Hdec; eassumption | apply Hdigit; lia | now left
          | now (right; left) ].
Qed.

Lemma parsed_string_characters_witness :
  Forall (fun c => c = 45%N \/ c = 32%N \/ is_decimal ascii_only c = true)
         (cps "2024-06- 1").
Proof.
  exact (parsed_string_characters ascii_only (cps "2024-06- 1")
           (mkdate 2024 6 1) eq_refl).
Defined.

Lemma digit_char n : ascii_digit (Z.to_N (48 + n mod 10)) = true.
Proof.
  apply (ascii_digit_iff ascii_only). Z.div_mod_to_equations. lia.
Qed.

Lemma number_zfill_2 n :
  0 <= n < 100 -> number 0 (zfill 2 n) = n.
Proof.
  intros H. cbn [zfill number List.app].
  Z.div_mod_to_equations. lia.
Qed.

Lemma number_zfill_4 n :
  0 <= n < 10000 -> number 0 (zfill 4 n) = n.
Proof.
  intros H. cbn [zfill number List.app].
  Z.div_mod_to_equations. lia.
Qed.

(** Written by [strftime], a date of the calendar from the year 1000 on
    is strictly [YYYY-MM-DD] and names itself. *)
Lemma strftime_strict d :
  new_date (year d) (month d) (day d) = Some d ->
  1000 <= year d ->
  strict_ymd (strftime_ymd d) = Some d.
Proof.
  intros Hn Hk. pose proof (new_date_inv _ _ _ _ Hn) as (_ & Hy & Hm & Hd).
  pose proof (days_in_month_le (year d) _ Hm) as Hd'.
  unfold strftime_ymd. rewrite (year_digits_4 _ Hk).
  pose proof (number_zfill_4 (year d)) as Ny.
  pose proof (number_zfill_2 (month d)) as Nm.
  pose proof (number_zfill_2 (day d)) as Nd.
  cbn [zfill List.app] in *. change (cps "-") with [45%N]. cbn [List.app].
  unfold strict_ymd. cbn [forallb]. rewrite !digit_char. cbn [andb].
  rewrite !N.eqb_refl. cbn [andb].
  rewrite Ny, Nm, Nd by lia. exact Hn.
Qed.

(** Before the year 1000 [strftime] writes fewer than ten characters. *)
Lemma strftime_short d :
  year d < 1000 -> (List.length (strftime_ymd d) < 10)%nat.
Proof.
  intros Hk. unfold strftime_ymd, year_digits.
  repeat split_if; b2p; try lia;
    rewrite !length_app; cbn [zfill List.app List.length cps]; cbn; lia.
Qed.

Lemma strict_length s d : strict_ymd s = Some d -> List.length s = 10%nat.
Proof.
  unfold strict_ymd.
  destruct s as [| a [| b [| c [| e [| f [| g [| h [| i [| j [| k [| l s]]]]]]]]]]];
    try discriminate. reflexivity.
Qed.

Lemma parsed_length unicode_decimal s d :
  parse_date_string unicode_decimal s = Return d ->
  (8 <= List.length s <= 10)%nat.
Proof.
  intros P. apply parse_fields in P.
  destruct P as (Y & M & D & y & m & dd & -> & HY & HM & HD & _).
  apply year_text_cases in HY.
  destruct HY as (a & b & c & e & va & vb & vc & vd & -> & _).
  apply (month_text_cases unicode_decimal) in HM. apply day_text_cases in HD.
  destruct HM as [[? [-> _]] | [[? [-> _]] | [? [-> _]]]];
    destruct HD as [[? [-> _]] | [[? [-> _]] | [[? [-> _]]
                   | [[? [? [? [-> _]]]] | [? [-> _]]]]]];
    cbn; lia.
Qed.

(** Before the year 1000 what [strftime] writes has no four digits before
    the first hyphen, and is not read. *)
Lemma strftime_unread unicode_decimal d :
  1 <= year d < 1000 ->
  parse_date_string unicode_decimal (strftime_ymd d)
  = Raise (HTTPException 400 (cps "Invalid date format. Expected YYYY-MM-DD")).
Proof.
  intros Hk.
  destruct (parse_outcome unicode_decimal (strftime_ymd d))
    as [[d' [S _]] | [_ P]]; [exfalso | exact P].
  apply strptime_sound in S.
  destruct S as (Y & M & D & y & m & dd & E & HY & _).
  apply year_text_cases in HY.
  destruct HY as (a & b & c & e & va & vb & vc & vd & -> & Ea & Eb & Ec & Ee & _).
  unfold strftime_ymd, year_digits in E. change (cps "-") with [45%N] in E.
  repeat split_if; b2p; try lia; cbn [zfill List.app] in E;
    injection E as E1 E2 E3 E4 E5; subst;
    match goal with
    | H : digit_value unicode_decimal 45 = Some _ |- _ =>
        rewrite digit_value_low in H by lia; discriminate H
    end.
Qed.

(** X4.  A date of the calendar written with [strftime] is read back by
    [parse_date_string] exactly when its year is 1000 or later, and then
    as the same date: the [print_date] of a response can be sent as the
    next request from the year 1000 on, and is answered 400 before. *)
Theorem written_date_is_read_back unicode_decimal d :
  new_date (year d) (month d) (day d) = Some d ->
  (1000 <= year d ->
   parse_date_string unicode_decimal (strftime_ymd d) = Return d)
  /\ (year d < 1000 ->
      parse_date_string unicode_decimal (strftime_ymd d)
      = Raise (HTTPException 400
                 (cps "Invalid date format. Expected YYYY-MM-DD"))).
Proof.
  intros Hn. split; intros Hk.
  - apply (strftime_strict _ Hn) in Hk.
    now apply (strict_accepted unicode_decimal) in Hk.
  - apply strftime_unread.
    pose proof (new_date_inv _ _ _ _ Hn) as (_ & Hy & _). lia.
Qed.

Lemma written_date_is_read_back_witness :
  parse_date_string ascii_only (strftime_ymd (mkdate 2024 2 29))
  = Return (mkdate 2024 2 29)
  /\ parse_date_string ascii_only (strftime_ymd (mkdate 999 2 3))
     = Raise (HTTPException 400
                (cps "Invalid date format. Expected YYYY-MM-DD")).
Proof.
  split.
  - apply (written_date_is_read_back ascii_only (mkdate 2024 2 29) eq_refl).
    cbn. lia.
  - apply (written_date_is_read_back ascii_only (mkdate 999 2 3) eq_refl).
    cbn. lia.
Defined.

(** X5.  Among the dates from the year 1000 on, the strings that are
    strictly [YYYY-MM-DD] are exactly the strings that
    [parse_date_string] reads and [strftime] writes back unchanged; every
    other string it reads is written back differently. *)
Theorem strict_iff_read_and_written_back unicode_decimal s d :
  1000 <= year d ->
  strict_ymd s = Some d
  <-> parse_date_string unicode_decimal s = Return d /\ strftime_ymd d = s.
Proof.
  intros Hk. split.
  - intros H. apply (strict_accepted unicode_decimal) in H.
    destruct H as [P R]. auto.
  - intros [P <-]. apply strftime_strict; [| exact Hk].
    now apply parsed_date_exists in P.
Qed.

Lemma strict_iff_read_and_written_back_witness :
  strict_ymd (cps "2024-06-12") = Some (mkdate 2024 6 12)
  <-> parse_date_string ascii_only (cps "2024-06-12") = Return (mkdate 2024 6 12)
      /\ strftime_ymd (mkdate 2024 6 12) = cps "2024-06-12".
Proof.
  apply (strict_iff_read_and_written_back ascii_only (cps "2024-06-12")
           (mkdate 2024 6 12)).
  cbn. lia.
Defined.
(** X6.  The twenty-ninth of February is read in leap years only: for a
    year of four ASCII digits, [YYYY-02-29] is read exactly when the year
    is at least 1 and divisible by 4 but not by 100, or divisible by
    400. *)
Theorem february_29_in_leap_years unicode_decimal y1 y2 y3 y4 :
  forallb ascii_digit [y1; y2; y3; y4] = true ->
  let y := number 0 [y1; y2; y3; y4] in
  (exists d, parse_date_string unicode_decimal
               ([y1; y2; y3; y4] ++ cps "-02-29") = Return d)
  <-> 1 <= y /\ (y mod 4 = 0 /\ (y mod 100 <> 0 \/ y mod 400 = 0)).
Proof.
  intros H y. cbn [forallb] in H. b2p.
  repeat match goal with
         | H : ascii_digit _ = true |- _ =>
             apply (ascii_digit_iff unicode_decimal) in H
         end.
  assert (0 <= y <= 9999) as By by (subst y; cbn [number]; lia).
  assert (year_text unicode_decimal [y1; y2; y3; y4] = Some y) as HY.
  { cbn [year_text digits_value].
    rewrite !(digit_value_ascii unicode_decimal) by lia.
    f_equal. subst y. cbn [number]. lia. }
  pose proof (strptime_fields unicode_decimal [y1; y2; y3; y4]
                [48; 50]%N [50; 57]%N y 2 29 HY eq_refl eq_refl) as S.
  change ([y1; y2; y3; y4] ++ 45%N :: [48; 50]%N ++ 45%N :: [50; 57]%N)
    with ([y1; y2; y3; y4] ++ cps "-02-29") in S.
  unfold parse_date_string. rewrite S. clear S.
  unfold new_date, MINYEAR, MAXYEAR, _days_in_month, _is_leap.
  change (2 =? 2) with true. cbn [andb].
  replace (y <=? 9999) with true by (symmetry; apply Z.leb_le; lia).
  destruct (Z.leb_spec 1 y) as [E1 | E1]; cbn [andb negb].
  2: { split; [intros [d [=]] | lia]. }
  change (1 <=? 2) with true. change (2 <=? 12) with true. cbn [andb negb].
  change (1 <=? 29) with true. cbn [andb].
  destruct (Z.eqb_spec (y mod 4) 0) as [E4 | E4]; cbn [andb].
  2: { change (29 <=? nth (Z.to_nat 2) _DAYS_IN_MONTH 0) with false.
       cbn [negb]. split; [intros [d [=]] | lia]. }
  destruct (Z.eqb_spec (y mod 100) 0) as [E100 | E100]; cbn [negb orb].
  - destruct (Z.eqb_spec (y mod 400) 0) as [E400 | E400].
    + change (29 <=? 29) with true. cbn [negb]. split; [lia | eauto].
    + change (29 <=? nth (Z.to_nat 2) _DAYS_IN_MONTH 0) with false.
      cbn [negb]. split; [intros [d [=]] | lia].
  - change (29 <=? 29) with true. cbn [negb]. split; [lia | eauto].
Qed.

Lemma february_29_in_leap_years_witness :
  (exists d, parse_date_string ascii_only (cps "1900-02-29") = Return d)
  <-> 1 <= 1900 /\ (1900 mod 4 = 0 /\ (1900 mod 100 <> 0 \/ 1900 mod 400 = 0)).
Proof.
  exact (february_29_in_leap_years ascii_only 49 57 48 48 eq_refl).
Defined.


(** ** More of [get_connections_game] *)

Lemma app_200_inv unicode_decimal db s w game :
  fst (app unicode_decimal db (GET_connections s) w)
  = mkresponse 200 (Model game) ->
  exists d solutions row id ed,
    parse_date_string unicode_decimal s = Return d
    /\ db = Serving solutions
    /\ record_for solutions d = Some row
    /\ Solutions.game_id row = Some id
    /\ Solutions.editor row = Some ed
    /\ game = mkgame id (strftime_ymd d) ed (Solutions.categories row).
Proof.
  destruct (parse_outcome unicode_decimal s) as [[d [_ P]] | [R _]].
  - destruct (app_accepts unicode_decimal db s d w P) as (w' & _ & H).
    destruct db as [m | m | m | solutions]; destruct H as [-> _]; cbn [fst];
      try discriminate.
    destruct (record_for solutions d) as [row |] eqn:E; [| discriminate].
    pose proof (record_for_date _ _ _ E) as Ed.
    unfold row_response, ConnectionsGame_init.
    destruct (Solutions.game_id row) as [id |] eqn:Ei;
      destruct (Solutions.editor row) as [ed |] eqn:Ee; try discriminate.
    intros [= <-]. exists d, solutions, row, id, ed. rewrite Ed. auto 6.
  - rewrite (app_rejects unicode_decimal db s w R). discriminate.
Qed.

Lemma date_eqb_neq a b : a <> b -> date_eqb a b = false.
Proof.
  intros ne. destruct (date_eqb a b) eqn:E; [| reflexivity].
  now apply date_eqb_eq in E.
Qed.

Lemma date_eqb_refl a : date_eqb a a = true.
Proof.
  unfold date_eqb. now rewrite !Z.eqb_refl.
Qed.

(** X7.  Two strings read as the same date are answered alike: the same
    status, and the same response unless it is the 404, whose detail
    quotes the string.  So [2024-6-1] and [2024-06-01] get the same
    game. *)
Theorem same_date_same_answer unicode_decimal db s1 s2 d w1 w2 :
  parse_date_string unicode_decimal s1 = Return d ->
  parse_date_string unicode_decimal s2 = Return d ->
  let r1 := fst (app unicode_decimal db (GET_connections s1) w1) in
  let r2 := fst (app unicode_decimal db (GET_connections s2) w2) in
  status r1 = status r2 /\ (status r1 <> 404 -> r1 = r2).
Proof.
  intros P1 P2.
  destruct (app_accepts unicode_decimal db s1 d w1 P1) as (w1' & _ & H1).
  destruct (app_accepts unicode_decimal db s2 d w2 P2) as (w2' & _ & H2).
  destruct db as [m | m | m | solutions]; destruct H1 as [-> _];
    destruct H2 as [-> _]; cbn [fst]; try (split; reflexivity).
  destruct (record_for solutions d); cbn [status].
  - split; reflexivity.
  - split; [reflexivity | intros ne; now destruct ne].
Qed.

Lemma same_date_same_answer_witness :
  let r1 := fst (app ascii_only (Serving [june_12])
                   (GET_connections (cps "2024-6-12")) fresh_world) in
  let r2 := fst (app ascii_only (Serving [june_12])
                   (GET_connections (cps "2024-06-12")) fresh_world) in
  status r1 = status r2 /\ (status r1 <> 404 -> r1 = r2).
Proof.
  exact (same_date_same_answer ascii_only (Serving [june_12])
           (cps "2024-6-12") (cps "2024-06-12") (mkdate 2024 6 12)
           fresh_world fresh_world eq_refl eq_refl).
Defined.

(** X8.  The [print_date] of a 200 response is the date read from the
    request as [strftime] writes it, however the request wrote it: from
    the year 1000 on it is strictly [YYYY-MM-DD] and names that date;
    before, it is shorter than ten characters and is not of that form. *)
Theorem print_date_is_canonical unicode_decimal db s w game :
  fst (app unicode_decimal db (GET_connections s) w)
  = mkresponse 200 (Model game) ->
  exists d, parse_date_string unicode_decimal s = Return d
            /\ print_date game = strftime_ymd d
            /\ (1000 <= year d -> strict_ymd (print_date game) = Some d)
            /\ (year d < 1000 -> strict_ymd (print_date game) = None).
Proof.
  intros H. apply app_200_inv in H.
  destruct H as (d & solutions & row & id & ed & P & _ & _ & _ & _ & ->).
  exists d. split; [exact P |]. cbn [print_date].
  split; [reflexivity |]. split; intros Hk.
  - apply strftime_strict; [| exact Hk]. now apply parsed_date_exists in P.
  - destruct (strict_ymd (strftime_ymd d)) as [d' |] eqn:S; [| reflexivity].
    apply strict_length in S. pose proof (strftime_short d Hk). lia.
Qed.

Lemma print_date_is_canonical_witness :
  exists d, parse_date_string ascii_only (cps "2024-6-12") = Return d
            /\ cps "2024-06-12" = strftime_ymd d
            /\ (1000 <= year d -> strict_ymd (cps "2024-06-12") = Some d)
            /\ (year d < 1000 -> strict_ymd (cps "2024-06-12") = None).
Proof.
  exact (print_date_is_canonical ascii_only (Serving [june_12])
           (cps "2024-6-12") fresh_world
           (mkgame 500 (cps "2024-06-12") (cps "Wyna Liu") fruits) eq_refl).
Defined.

(** X9.  Asking again with the [print_date] of a 200 response for a date
    of the year 1000 or later gives that response again, in any later
    world, as long as the store is the same. *)
Theorem print_date_asks_the_same unicode_decimal db s d w game w' :
  parse_date_string unicode_decimal s = Return d ->
  1000 <= year d ->
  fst (app unicode_decimal db (GET_connections s) w)
  = mkresponse 200 (Model game) ->
  fst (app unicode_decimal db (GET_connections (print_date game)) w')
  = mkresponse 200 (Model game).
Proof.
  intros P Hk H. apply app_200_inv in H.
  destruct H as (d' & solutions & row & id & ed & P' & -> & E & Ei & Ee & ->).
  assert (d' = d) as -> by congruence.
  cbn [print_date].
  pose proof (strftime_strict d (parsed_date_exists _ _ _ P) Hk) as S.
  apply (strict_accepted unicode_decimal) in S. destruct S as [Pp _].
  destruct (app_accepts unicode_decimal (Serving solutions) _ d w' Pp)
    as (w2 & _ & -> & _).
  cbn [fst]. rewrite E. unfold row_response, ConnectionsGame_init.
  now rewrite Ei, Ee, (record_for_date _ _ _ E).
Qed.

Lemma print_date_asks_the_same_witness :
  fst (app ascii_only (Serving [june_12])
         (GET_connections (cps "2024-06-12")) fresh_world)
  = mkresponse 200
      (Model (mkgame 500 (cps "2024-06-12") (cps "Wyna Liu") fruits)).
Proof.
  apply (print_date_asks_the_same ascii_only (Serving [june_12])
           (cps "2024-6-12") (mkdate 2024 6 12) fresh_world
           (mkgame 500 (cps "2024-06-12") (cps "Wyna Liu") fruits)
           fresh_world eq_refl); [cbn; lia | reflexivity].
Defined.

Lemma record_for_skip before row after d :
  Solutions.game_date row <> d ->
  record_for (before ++ row :: after) d = record_for (before ++ after) d.
Proof.
  intros ne. unfold record_for.
  induction before as [| r before IH]; cbn [List.app find].
  - now rewrite (date_eqb_neq _ _ ne).
  - destruct (date_eqb (Solutions.game_date r) d); [reflexivity | exact IH].
Qed.

Lemma record_for_first before row after :
  (forall r, In r before ->
             Solutions.game_date r <> Solutions.game_date row) ->
  record_for (before ++ row :: after) (Solutions.game_date row) = Some row.
Proof.
  intros H. unfold record_for.
  induction before as [| r before IH]; cbn [List.app find].
  - now rewrite date_eqb_refl.
  - rewrite (date_eqb_neq _ _ (H r (or_introl eq_refl))).
    apply IH. intros r' Hr'. apply H. now right.
Qed.

(** X10.  A row of another date has no part in the answer: with or
    without it in the table, wherever it stands, the response to a request
    is the same. *)
Theorem other_dates_are_ignored unicode_decimal before row after s d w :
  parse_date_string unicode_decimal s = Return d ->
  Solutions.game_date row <> d ->
  fst (app unicode_decimal (Serving (before ++ row :: after))
         (GET_connections s) w)
  = fst (app unicode_decimal (Serving (before ++ after))
           (GET_connections s) w).
Proof.
  intros P ne.
  destruct (app_accepts unicode_decimal (Serving (before ++ row :: after))
              s d w P) as (w1 & _ & -> & _).
  destruct (app_accepts unicode_decimal (Serving (before ++ after))
              s d w P) as (w2 & _ & -> & _).
  cbn [fst]. now rewrite (record_for_skip _ _ _ _ ne).
Qed.

Lemma other_dates_are_ignored_witness :
  fst (app ascii_only (Serving ([] ++ june_12 :: []))
         (GET_connections (cps "2099-01-01")) fresh_world)
  = fst (app ascii_only (Serving ([] ++ []))
           (GET_connections (cps "2099-01-01")) fresh_world).
Proof.
  apply (other_dates_are_ignored ascii_only [] june_12 []
           (cps "2099-01-01") (mkdate 2099 1 1) fresh_world eq_refl).
  discriminate.
Defined.

(** X11.  When several rows carry the date asked for, the answer is made
    from the first of them in table order, and the rows after it, of that
    date or not, change nothing: the answer is the 200 with the game of
    that row when its [game_id] and [editor] are not NULL, and the plain
    500 of the server when one of them is. *)
Theorem first_row_wins unicode_decimal before row after s w :
  parse_date_string unicode_decimal s = Return (Solutions.game_date row) ->
  (forall r, In r before ->
             Solutions.game_date r <> Solutions.game_date row) ->
  fst (app unicode_decimal (Serving (before ++ row :: after))
         (GET_connections s) w)
  = match Solutions.game_id row, Solutions.editor row with
    | Some id, Some ed =>
        mkresponse 200
          (Model (mkgame id (strftime_ymd (Solutions.game_date row)) ed
                         (Solutions.categories row)))
    | _, _ => mkresponse 500 (Text (cps "Internal Server Error"))
    end.
Proof.
  intros P H.
  destruct (app_accepts unicode_decimal (Serving (before ++ row :: after))
              s _ w P) as (w1 & _ & -> & _).
  cbn [fst]. rewrite (record_for_first _ _ _ H).
  unfold row_response, ConnectionsGame_init.
  now destruct (Solutions.game_id row), (Solutions.editor row).
Qed.

Lemma first_row_wins_witness :
  fst (app ascii_only
         (Serving ([Solutions.mkrow (mkdate 2024 6 11) (Some 499)
                      (Some (cps "Before")) PyNone]
                   ++ june_12
                      :: [Solutions.mkrow (mkdate 2024 6 12) (Some 501)
                            (Some (cps "After")) PyNone]))
         (GET_connections (cps "2024-06-12")) fresh_world)
  = mkresponse 200
      (Model (mkgame 500 (cps "2024-06-12") (cps "Wyna Liu") fruits)).
Proof.
  apply (first_row_wins ascii_only
           [Solutions.mkrow (mkdate 2024 6 11) (Some 499)
              (Some (cps "Before")) PyNone]
           june_12
           [Solutions.mkrow (mkdate 2024 6 12) (Some 501)
              (Some (cps "After")) PyNone]
           (cps "2024-06-12") fresh_world eq_refl).
  intros r [<- | []]. discriminate.
Defined.

(** X12.  The status of the answer to a request for a date that the
    router hands to the handler, in full: 400 when the string is not read
    as a date, whatever the store; otherwise 500 when the store fails, 404
    when it answers and holds no row of the date, 200 when the first row
    of the date has a [game_id] and an [editor], and 500 when one of them
    is NULL. *)
Theorem status_table unicode_decimal db s w :
  path_segment s = true ->
  status (fst (app unicode_decimal db (GET_connections s) w))
  = match lenient_ymd unicode_decimal s with
    | None => 400
    | Some d =>
        match db with
        | ConnectFails _ | QueryFails _ | ConnectionLost _ => 500
        | Serving solutions =>
            match record_for solutions d with
            | Some row =>
                match Solutions.game_id row, Solutions.editor row with
                | Some _, Some _ => 200
                | _, _ => 500
                end
            | None => 404
            end
        end
    end.
Proof.
  intros _. pose proof (parse_lenient unicode_decimal s) as P.
  destruct (lenient_ymd unicode_decimal s) as [d |] eqn:L.
  - destruct (app_accepts unicode_decimal db s d w P) as (w' & _ & H).
    destruct db as [m | m | m | solutions]; destruct H as [-> _];
      try reflexivity.
    cbn [fst]. destruct (record_for solutions d); [| reflexivity].
    apply row_response_status.
  - now rewrite (app_rejects unicode_decimal db s w
                   (lenient_rejected _ _ L)).
Qed.

Lemma status_table_witness :
  status (fst (app ascii_only (Serving [no_editor])
                 (GET_connections (cps "2024-06-13")) fresh_world))
  = 500.
Proof.
  exact (status_table ascii_only (Serving [no_editor]) (cps "2024-06-13")
           fresh_world eq_refl).
Defined.

(** X13.  The plain 500 of the server, the one body that is not JSON, is
    sent in two cases and no other: the string is read as a date and
    either the connection is lost under the statement, or the first row of
    the date has a NULL [game_id] or [editor].  Every other answer of the
    handler that is not a 200 is a JSON object with the one key
    [detail]. *)
Theorem errors_carry_a_detail unicode_decimal db req w :
  let r := fst (app unicode_decimal db req w) in
  ((exists text, body r = Text text)
   <-> exists s d,
         req = GET_connections s
         /\ parse_date_string unicode_decimal s = Return d
         /\ match db with
            | ConnectionLost _ => True
            | Serving solutions =>
                match record_for solutions d with
                | Some row => Solutions.game_id row = None
                              \/ Solutions.editor row = None
                | None => False
                end
            | ConnectFails _ | QueryFails _ => False
            end)
  /\ (forall s, req = GET_connections s -> path_segment s = true ->
        status r <> 200 ->
        r = mkresponse 500 (Text (cps "Internal Server Error"))
        \/ exists detail, body r = detail_body detail).
Proof.
  destruct req as [s | |]; cbv zeta.
  - destruct (parse_outcome unicode_decimal s) as [[d [_ P]] | [R P]].
    + destruct (app_accepts unicode_decimal db s d w P) as (w' & _ & H).
      destruct db as [m | m | m | solutions]; destruct H as [-> _]; cbn [fst].
      * split.
        -- split; [intros [text [=]] |].
           intros (s' & d' & _ & _ & []).
        -- intros _ _ _ _. right. eexists. reflexivity.
      * split.
        -- split; [intros [text [=]] |].
           intros (s' & d' & _ & _ & []).
        -- intros _ _ _ _. right. eexists. reflexivity.
      * split.
        -- split; [| intros _; eexists; reflexivity].
           intros _. exists s, d. auto.
        -- intros _ _ _ _. now left.
      * destruct (record_for solutions d) as [row |] eqn:E.
        -- unfold row_response, ConnectionsGame_init.
           destruct (Solutions.game_id row) as [id |] eqn:Ei;
             destruct (Solutions.editor row) as [ed |] eqn:Ee;
             cbn [respond body status].
           ++ split.
              ** split; [intros [text [=]] |].
                 intros (s' & d' & [= <-] & P' & H).
                 assert (d' = d) as -> by congruence.
                 rewrite E in H. destruct H; congruence.
              ** intros _ _ _ ne. now destruct ne.
           ++ split; [| intros _ _ _ _; now left].
              split; [| intros _; eexists; reflexivity].
              intros _. exists s, d. rewrite E. auto.
           ++ split; [| intros _ _ _ _; now left].
              split; [| intros _; eexists; reflexivity].
              intros _. exists s, d. rewrite E. auto.
           ++ split; [| intros _ _ _ _; now left].
              split; [| intros _; eexists; reflexivity].
              intros _. exists s, d. rewrite E. auto.
        -- split.
           ++ split; [intros [text [=]] |].
              intros (s' & d' & [= <-] & P' & H).
              assert (d' = d) as -> by congruence.
              rewrite E in H. destruct H.
           ++ intros _ _ _ _. right. eexists. reflexivity.
    + rewrite (app_rejects unicode_decimal db s w R). cbn [fst body]. split.
      * split; [intros [text [=]] |].
        intros (s' & d' & [= <-] & P' & _). congruence.
      * intros _ _ _ _. right. eexists. reflexivity.
  - split; [| discriminate].
    split; [intros [text [=]] | intros (s' & d' & [=] & _)].
  - split; [| discriminate].
    split; [intros [text [=]] | intros (s' & d' & [=] & _)].
Qed.

(** X18.  A rollback is asked for exactly when the statement failed, and
    a row is fetched exactly when it succeeded, once: never more than one
    row is read, and a 404 or a 200 is never rolled back. *)
Theorem rollback_and_fetch unicode_decimal db s w :
  let evs := events_of w (snd (app unicode_decimal db (GET_connections s) w)) in
  rollbacks evs
  = match lenient_ymd unicode_decimal s, db with
    | Some _, (QueryFails _ | ConnectionLost _) => 1%nat
    | _, _ => 0%nat
    end
  /\ fetches evs
     = match lenient_ymd unicode_decimal s, db with
       | Some _, Serving _ => 1%nat
       | _, _ => 0%nat
       end.
Proof.
  pose proof (parse_lenient unicode_decimal s) as P. cbv zeta.
  destruct (lenient_ymd unicode_decimal s) as [d |] eqn:L.
  - destruct (app_accepts unicode_decimal db s d w P) as (w' & _ & H).
    destruct db as [m | m | m | solutions]; destruct H as [-> E];
      cbn [snd]; rewrite E; split; reflexivity.
  - rewrite (app_rejects unicode_decimal db s w (lenient_rejected _ _ L)).
    cbn [snd]. rewrite events_of_same. split; reflexivity.
Qed.

(** X22.  Of the strings the router hands to the handler, those that
    [strptime] does not read, and only those, are answered 400: the
    detail is the fixed text, the driver is not called and the world is
    left as it was. *)
Theorem unread_string_is_400 unicode_decimal db s w :
  path_segment s = true ->
  (lenient_ymd unicode_decimal s = None ->
   app unicode_decimal db (GET_connections s) w
   = (mkresponse 400
        (detail_body (cps "Invalid date format. Expected YYYY-MM-DD")), w))
  /\ (forall d, lenient_ymd unicode_decimal s = Some d ->
        status (fst (app unicode_decimal db (GET_connections s) w)) <> 400).
Proof.
  intros _. split.
  - intros L. apply app_rejects. now apply lenient_rejected.
  - intros d L. now apply (accepted_date_is_looked_up unicode_decimal db s d w).
Qed.

Lemma unread_string_is_400_witness :
  app ascii_only (Serving [june_12]) (GET_connections (cps "12-06-2024"))
      fresh_world
  = (mkresponse 400
       (detail_body (cps "Invalid date format. Expected YYYY-MM-DD")),
     fresh_world)
  /\ status (fst (app ascii_only (Serving [june_12])
                    (GET_connections (cps "2024-6-12")) fresh_world)) <> 400.
Proof.
  split.
  - exact (proj1 (unread_string_is_400 ascii_only (Serving [june_12])
                    (cps "12-06-2024") fresh_world eq_refl) eq_refl).
  - exact (proj2 (unread_string_is_400 ascii_only (Serving [june_12])
                    (cps "2024-6-12") fresh_world eq_refl)
             (mkdate 2024 6 12) eq_refl).
Defined.

(** X23.  When [connect] fails, or the statement fails and leaves the
    connection usable, a request for a date the parser reads is answered
    500 with the detail [Database error: ] followed by the diagnostic of
    the driver; one connection attempt was made and at most one statement
    sent, and a connection that was made is rolled back and then closed by
    the last two calls. *)
Theorem usable_store_error_is_500 unicode_decimal db s d message w :
  parse_date_string unicode_decimal s = Return d ->
  db = ConnectFails message \/ db = QueryFails message ->
  exists w',
    app unicode_decimal db (GET_connections s) w
    = (mkresponse 500 (detail_body (cps "Database error: " ++ message)), w')
    /\ attempts (events_of w w') = 1%nat
    /\ (statements (events_of w w') <= 1)%nat
    /\ open_after [] (events_of w w') = []
    /\ forall conn, In (Connect (Some conn)) (events_of w w') ->
         exists before,
           events_of w w' = before ++ [Rollback conn; Close conn].
Proof.
  intros P E.
  destruct (app_accepts unicode_decimal db s d w P) as (w' & _ & H).
  destruct E as [-> | ->]; exists w'; destruct H as [H ->];
    (split; [exact H |]); cbn.
  - repeat split; try lia. intros conn [[=] | []].
  - destruct (Nat.eq_dec (next_id w) (next_id w)) as [_ | ne];
      [| now destruct ne].
    repeat split; try lia.
    intros conn [[= <-] | [[=] | [[=] | [[=] | [[=] | []]]]]].
    now exists [Connect (Some (next_id w)); Cursor (next_id w) (S (next_id w));
                Execute (S (next_id w)) select_by_date [SqlDate d]].
Qed.

Lemma usable_store_error_is_500_witness :
  exists w',
    app ascii_only (QueryFails (cps "relation does not exist"))
        (GET_connections (cps "2024-06-12")) fresh_world
    = (mkresponse 500
         (detail_body (cps "Database error: relation does not exist")), w')
    /\ attempts (events_of fresh_world w') = 1%nat
    /\ (statements (events_of fresh_world w') <= 1)%nat
    /\ open_after [] (events_of fresh_world w') = []
    /\ forall conn, In (Connect (Some conn)) (events_of fresh_world w') ->
         exists before,
           events_of fresh_world w' = before ++ [Rollback conn; Close conn].
Proof.
  exact (usable_store_error_is_500 ascii_only
           (QueryFails (cps "relation does not exist"))
           (cps "2024-06-12") (mkdate 2024 6 12)
           (cps "relation does not exist") fresh_world eq_refl
           (or_intror eq_refl)).
Defined.

(** ** More of [get_db_connection] *)

Lemma is_closed_set_closed conn w : is_closed conn (set_closed conn w) = true.
Proof.
  unfold is_closed, set_closed. cbn [closed existsb].
  now rewrite Nat.eqb_refl.
Qed.

(** X14.  A [psycopg2.Error] leaves [get_db_connection] in one case
    only: the body of the [with] raised one and left the connection
    closed, so that [rollback] raised in its turn, and it is the error of
    [rollback] that comes out.  In every other case an error raised by
    [connect] or by the body comes out as an [HTTPException]. *)
Theorem database_error_escapes_when_closed {A} db (with_body : nat -> M A) w
    message :
  let conn := next_id w in
  let after_body :=
    with_body conn (log (Connect (Some conn)) (set_open conn (snd (fresh w)))) in
  fst (get_db_connection db with_body w) = Raise (Psycopg2Error message)
  <-> (forall m, db <> ConnectFails m)
      /\ (exists m, fst after_body = Raise (Psycopg2Error m))
      /\ is_closed conn (snd after_body) = true
      /\ message = cps "connection already closed".
Proof.
  pose proof (get_db_connection_closes db with_body w) as H. cbv zeta in *.
  destruct db as [m | m | m | solutions].
  - rewrite H. cbn [fst]. split; [discriminate |].
    intros [ne _]. now destruct (ne m).
  - destruct (with_body _ _) as [[a | [| | sc dt | m']] w1]; rewrite H;
      cbn [fst snd];
      try (split; [discriminate | intros (_ & [m0 [=]] & _)]).
    destruct (is_closed (next_id w) w1).
    + split; [intros [= <-] | intros (_ & _ & _ & ->); reflexivity].
      repeat split; eauto. discriminate.
    + split; [discriminate | intros (_ & _ & [=] & _)].
  - destruct (with_body _ _) as [[a | [| | sc dt | m']] w1]; rewrite H;
      cbn [fst snd];
      try (split; [discriminate | intros (_ & [m0 [=]] & _)]).
    destruct (is_closed (next_id w) w1).
    + split; [intros [= <-] | intros (_ & _ & _ & ->); reflexivity].
      repeat split; eauto. discriminate.
    + split; [discriminate | intros (_ & _ & [=] & _)].
  - destruct (with_body _ _) as [[a | [| | sc dt | m']] w1]; rewrite H;
      cbn [fst snd];
      try (split; [discriminate | intros (_ & [m0 [=]] & _)]).
    destruct (is_closed (next_id w) w1).
    + split; [intros [= <-] | intros (_ & _ & _ & ->); reflexivity].
      repeat split; eauto. discriminate.
    + split; [discriminate | intros (_ & _ & [=] & _)].
Qed.

(** X15.  Once [connect] has returned, whatever the body of the [with]
    does to the world, the calls made after it are [close] on the
    connection, preceded by [rollback] exactly when the body raised a
    [psycopg2.Error], and the connection ends closed.  What the body
    returned or raised otherwise comes out unchanged; a [psycopg2.Error]
    comes out as the [HTTPException] 500 when the connection is still
    open for the rollback, and as the error of [rollback] when it is
    not. *)
Theorem connection_closed_after_any_body {A} db (with_body : nat -> M A) w :
  (forall message, db <> ConnectFails message) ->
  let conn := next_id w in
  let after_body :=
    with_body conn (log (Connect (Some conn)) (set_open conn (snd (fresh w)))) in
  let after := get_db_connection db with_body w in
  is_closed conn (snd after) = true
  /\ match fst after_body with
     | Raise (Psycopg2Error message) =>
         fst after
         = (if is_closed conn (snd after_body)
            then Raise (Psycopg2Error (cps "connection already closed"))
            else Raise (HTTPException 500 (cps "Database error: " ++ message)))
         /\ trace (snd after)
            = trace (snd after_body) ++ [Rollback conn; Close conn]
     | o =>
         fst after = o
         /\ trace (snd after) = trace (snd after_body) ++ [Close conn]
     end.
Proof.
  intros ok. pose proof (get_db_connection_closes db with_body w) as H.
  cbv zeta in *.
  destruct db as [m | m | m | solutions]; [now destruct (ok m) | | |];
    destruct (with_body _ _) as [[a | [| | sc dt | m']] w1];
    rewrite H; cbn [fst snd]; rewrite is_closed_set_closed;
    cbn [set_closed log trace]; rewrite <- ?app_assoc; auto.
Qed.

Lemma connection_closed_after_any_body_witness :
  let body := fun (conn : nat) =>
    (_ <- close conn ;; @raise unit (Psycopg2Error (cps "boom")))%py in
  let after := get_db_connection (Serving []) body fresh_world in
  is_closed 0 (snd after) = true
  /\ fst after = Raise (Psycopg2Error (cps "connection already closed"))
  /\ trace (snd after)
     = [Connect (Some 0%nat); Close 0%nat] ++ [Rollback 0%nat; Close 0%nat].
Proof.
  apply (connection_closed_after_any_body (Serving [])
           (fun conn =>
              (_ <- close conn ;; @raise unit (Psycopg2Error (cps "boom")))%py)
           fresh_world).
  discriminate.
Defined.

(** ** Requests in sequence *)

Lemma app_any_world unicode_decimal db req w1 w2 :
  fst (app unicode_decimal db req w1) = fst (app unicode_decimal db req w2).
Proof.
  destruct req as [s | |]; [| reflexivity | reflexivity].
  destruct (parse_outcome unicode_decimal s) as [[d [_ P]] | [R _]].
  - destruct (app_accepts unicode_decimal db s d w1 P) as (w1' & _ & H1).
    destruct (app_accepts unicode_decimal db s d w2 P) as (w2' & _ & H2).
    destruct db as [m | m | m | solutions]; destruct H1 as [-> _];
      destruct H2 as [-> _]; reflexivity.
  - now rewrite !(app_rejects unicode_decimal db s _ R).
Qed.

Lemma open_after_app evs1 : forall opened evs2,
  open_after opened (evs1 ++ evs2) = open_after (open_after opened evs1) evs2.
Proof.
  induction evs1 as [| e evs1 IH]; intros opened evs2; cbn [List.app].
  - reflexivity.
  - destruct e as [[conn |] | | | | |]; cbn [open_after]; apply IH.
Qed.

Lemma attempts_app evs1 evs2 :
  attempts (evs1 ++ evs2) = (attempts evs1 + attempts evs2)%nat.
Proof.
  unfold attempts. now rewrite filter_app, length_app.
Qed.

(** What one request adds to the trace. *)
Lemma app_events unicode_decimal db req w :
  exists evs,
    trace (snd (app unicode_decimal db req w)) = trace w ++ evs
    /\ open_after [] evs = []
    /\ attempts evs
       = (if reaches_store unicode_decimal (db, req) then 1 else 0)%nat.
Proof.
  unfold reaches_store. cbn [snd].
  destruct req as [s | |].
  - pose proof (parse_lenient unicode_decimal s) as P.
    destruct (lenient_ymd unicode_decimal s) as [d |] eqn:L.
    + destruct (app_accepts unicode_decimal db s d w P) as (w' & T & H).
      exists (events_of w w').
      destruct db as [m | m | m | solutions]; destruct H as [-> E];
        cbn [snd]; (split; [exact T |]); rewrite E; cbn;
        try (destruct (Nat.eq_dec (next_id w) (next_id w)) as [_ | ne];
             [| now destruct ne]);
        split; reflexivity.
    + rewrite (app_rejects unicode_decimal db s w (lenient_rejected _ _ L)).
      exists []. cbn [snd]. now rewrite app_nil_r.
  - exists []. cbn. now rewrite app_nil_r.
  - exists []. cbn. now rewrite app_nil_r.
Qed.

Lemma serve_all_events unicode_decimal steps : forall w,
  exists evs,
    trace (snd (serve_all unicode_decimal steps w)) = trace w ++ evs
    /\ open_after [] evs = []
    /\ attempts evs
       = List.length (filter (reaches_store unicode_decimal) steps).
Proof.
  induction steps as [| [db req] rest IH]; intros w.
  - exists []. cbn. now rewrite app_nil_r.
  - destruct (app_events unicode_decimal db req w) as (e1 & T1 & O1 & A1).
    cbn [serve_all].
    destruct (app unicode_decimal db req w) as [r w1]. cbn [snd] in T1.
    destruct (IH w1) as (e2 & T2 & O2 & A2).
    destruct (serve_all unicode_decimal rest w1) as [rs w2]. cbn [snd] in *.
    exists (e1 ++ e2). rewrite T2, T1, app_assoc.
    split; [reflexivity |]. split.
    + now rewrite open_after_app, O1.
    + rewrite attempts_app, A1, A2. cbn [filter].
      now destruct (reaches_store unicode_decimal (db, req)).
Qed.

(** X16.  Requests do not see each other: served one after another, with
    the store changing or not in between, each is answered as it would be
    alone in a process that has served nothing yet. *)
Theorem requests_are_isolated unicode_decimal steps w :
  fst (serve_all unicode_decimal steps w)
  = map (fun step => fst (app unicode_decimal (fst step) (snd step) fresh_world))
        steps.
Proof.
  revert w. induction steps as [| [db req] rest IH]; intros w.
  - reflexivity.
  - cbn [serve_all map fst snd].
    rewrite (app_any_world unicode_decimal db req fresh_world w).
    destruct (app unicode_decimal db req w) as [r w1].
    specialize (IH w1).
    destruct (serve_all unicode_decimal rest w1) as [rs w2].
    cbn [fst] in *. now rewrite IH.
Qed.

(** X17.  After any number of requests, on any routes and against any
    states of the store, the process holds no open connection. *)
Theorem no_connection_outlives_a_session unicode_decimal steps w :
  open_after [] (events_of w (snd (serve_all unicode_decimal steps w))) = [].
Proof.
  destruct (serve_all_events unicode_decimal steps w) as (evs & T & O & _).
  now rewrite (events_of_grown _ _ _ T).
Qed.

(** X19.  The store is contacted once for each request for a date the
    parser reads, and not otherwise: over any sequence of requests the
    number of connection attempts is the number of such requests, so
    health checks, the root and malformed dates cost the store nothing. *)
Theorem one_attempt_per_lookup unicode_decimal steps w :
  attempts (events_of w (snd (serve_all unicode_decimal steps w)))
  = List.length (filter (reaches_store unicode_decimal) steps).
Proof.
  destruct (serve_all_events unicode_decimal steps w) as (evs & T & _ & A).
  now rewrite (events_of_grown _ _ _ T).
Qed.

(** ** Padding and the year *)

(** X20.  Padding is optional: a month or a day written with one digit,
    with a zero before it, or for the day with a blank before it, is the
    same month or day, so the three spellings are read as the same date or
    refused together. *)
Theorem padding_is_optional unicode_decimal Y y a b :
  year_text unicode_decimal Y = Some y ->
  (49 <= a <= 57)%N ->
  (49 <= b <= 57)%N ->
  let plain := parse_date_string unicode_decimal (Y ++ 45%N :: [a] ++ 45%N :: [b]) in
  parse_date_string unicode_decimal (Y ++ 45%N :: [48%N; a] ++ 45%N :: [48%N; b])
  = plain
  /\ parse_date_string unicode_decimal (Y ++ 45%N :: [a] ++ 45%N :: [32%N; b])
     = plain.
Proof.
  intros HY Ha Hb.
  assert (month_text [a] = Some (Z.of_N a - 48)) as M1
    by (apply (month_text_cases unicode_decimal); left; eauto).
  assert (month_text [48%N; a] = Some (Z.of_N a - 48)) as M2
    by (apply (month_text_cases unicode_decimal); right; left; eauto).
  assert (day_text unicode_decimal [b] = Some (Z.of_N b - 48)) as D1
    by (apply day_text_cases; left; eauto).
  assert (day_text unicode_decimal [48%N; b] = Some (Z.of_N b - 48)) as D2
    by (apply day_text_cases; right; right; left; eauto).
  assert (day_text unicode_decimal [32%N; b] = Some (Z.of_N b - 48)) as D3
    by (apply day_text_cases; right; left; eauto).
  cbv zeta. unfold parse_date_string.
  rewrite (strptime_fields _ _ _ _ _ _ _ HY M1 D1).
  rewrite (strptime_fields _ _ _ _ _ _ _ HY M2 D2).
  rewrite (strptime_fields _ _ _ _ _ _ _ HY M1 D3).
  split; reflexivity.
Qed.

Lemma padding_is_optional_witness :
  let plain := parse_date_string ascii_only (cps "2024-6-1") in
  parse_date_string ascii_only (cps "2024-06-01") = plain
  /\ parse_date_string ascii_only (cps "2024-6- 1") = plain.
Proof.
  apply (padding_is_optional ascii_only (cps "2024") 2024 54 49 eq_refl);
    lia.
Defined.

(** X21.  The year is never padded for the client: a string read as a
    date starts with exactly four decimal digits and a hyphen, and the
    year of the date is the number these digits write.  [999-01-01] is a
    400. *)
Theorem year_has_four_digits unicode_decimal s d :
  parse_date_string unicode_decimal s = Return d ->
  exists Y rest,
    s = Y ++ 45%N :: rest
    /\ List.length Y = 4%nat
    /\ digits_value unicode_decimal 0 Y = Some (year d).
Proof.
  intros P. apply parse_fields in P.
  destruct P as (Y & M & D & y & m & dd & -> & HY & _ & _ & Hn).
  apply new_date_inv in Hn. destruct Hn as (-> & _).
  exists Y, (M ++ 45%N :: D). split; [reflexivity |].
  unfold year_text in HY.
  destruct Y as [| a [| b [| c [| e [| f Y]]]]]; try discriminate.
  split; [reflexivity | exact HY].
Qed.

Lemma year_has_four_digits_witness :
  exists Y rest,
    cps "0999-1-1" = Y ++ 45%N :: rest
    /\ List.length Y = 4%nat
    /\ digits_value ascii_only 0 Y = Some (year (mkdate 999 1 1)).
Proof.
  exact (year_has_four_digits ascii_only (cps "0999-1-1") (mkdate 999 1 1)
           eq_refl).
Defined.
